(** * claude-mem: worker discovery, liveness and transport

    A shallow embedding of the hook-side coordination layer

      - [src/shared/worker-utils.ts]   (port/host cache, port search,
                                        liveness and version check,
                                        timeout race)
      - [src/shared/http-client.ts]    (keep-alive transport)
      - [src/hooks/session-start.ts], [stop.ts], [session-end.ts],
        [user-prompt-submit.ts], [post-tool-use.ts]
                                       (lifecycle hook handlers)
      - [src/utils/format.ts], [scripts/test-performance.js]
                                       (number formatting, average)

    together with the properties the specification states about them.

    Module-level [let] variables become a [Cache] record threaded through
    every call; [throw]/[try]/[catch] become a result type; everything a
    call does to the outside (file reads, requests, console and logger
    lines, TCP probes) is collected as a list of [Event]s in program order. *)

From Stdlib Require Import Ascii.
From stdpp Require Import gmap strings pretty list.

Open Scope Z_scope.
Set Warnings "-register-all".

(** ** JavaScript values used by the code *)

Module Js.

(** A JS [number] holding an integer or [NaN].  Numbers are doubles: an
    integer is a value the code can hold only if a double represents it,
    which every integer up to 2^53 in magnitude is.  The one fraction in
    the code embedded here is the quotient inside [calculateAverage] (see
    [Double] below); infinities are not part of the embedding. *)
Inductive number := NaN | Num (z : Z).

(** [Number.MAX_SAFE_INTEGER], 2^53 - 1. *)
Definition MAX_SAFE_INTEGER : Z := 9007199254740991.

(** [p / r] for positive integers, rounded to the nearest integer, ties
    going to the even one: how the last bit of a mantissa is decided. *)
Definition roundHalfEven (p r : Z) : Z :=
  let q := p `div` r in
  let rem := p `mod` r in
  if (r <? 2 * rem) || ((2 * rem =? r) && Z.odd q) then q + 1 else q.

(** The double nearest to the integer [z] (53 bits of mantissa, ties to
    even): what the value of a digit string, or an exact integer sum,
    becomes as a [number].  Exact up to 2^53 in magnitude.  Magnitudes from
    2^1024 - 2^970 on, which become [Infinity], are outside the
    embedding. *)
Definition toDouble (z : Z) : Z :=
  let a := Z.abs z in
  if a <? 2 ^ 53 then z
  else
    let e := Z.log2 a - 52 in
    Z.sgn z * (roundHalfEven a (2 ^ e) * 2 ^ e).

(** [a + b] on integer-valued doubles: the exact sum, rounded. *)
Definition addDoubles (a b : Z) : Z := toDouble (a + b).

(** A double that need not be an integer: [mantissa * 2 ^ exponent]. *)
Record Double := { mantissa : Z; exponent : Z }.

(** [s / n] for an integer-valued double [s] and an integer [n > 0]: the
    exact quotient rounded to 53 bits.  [e] is the binary exponent of the
    quotient, 2^e <= |s|/n < 2^(e+1). *)
Definition divideDoubles (s n : Z) : Double :=
  if s =? 0 then {| mantissa := 0; exponent := 0 |}
  else
    let a := Z.abs s in
    let d := Z.log2 a - Z.log2 n in
    let e := if (if 0 <=? d then n * 2 ^ d <=? a else n <=? a * 2 ^ (- d))
             then d else d - 1 in
    let x := e - 52 in
    let m := if x <=? 0 then roundHalfEven (a * 2 ^ (- x)) n
             else roundHalfEven a (n * 2 ^ x) in
    {| mantissa := Z.sgn s * m; exponent := x |}.

(** [Math.round]: the nearest integer, halves going towards +Infinity. *)
Definition mathRound (d : Double) : Z :=
  if 0 <=? exponent d then mantissa d * 2 ^ exponent d
  else (2 * mantissa d + 2 ^ (- exponent d)) `div` 2 ^ (1 - exponent d).

(** Number of decimal digits of a positive integer. *)
Definition digitCount (v : Z) : Z := Z.of_nat (String.length (pretty v)).

(** The decimal with [k] significant digits that reads back as the double
    [x], if there is one: the nearer of the two neighbours of [x] at that
    precision, the one with the even last digit when both are as near. *)
Definition roundTrip (x k : Z) : option Z :=
  let unit := 10 ^ (digitCount x - k) in
  let lo := x `div` unit * unit in
  let hi := lo + unit in
  match toDouble lo =? x, toDouble hi =? x with
  | true, true =>
      if x - lo <? hi - x then Some lo
      else if hi - x <? x - lo then Some hi
      else if Z.even (lo `div` unit) then Some lo else Some hi
  | true, false => Some lo
  | false, true => Some hi
  | false, false => None
  end.

(** The integer whose digits [toString] prints for the positive
    integer-valued double [x]: as few significant digits as read back as
    [x] (17 always do), then zeros. *)
Definition shortestDigits (x : Z) : Z :=
  default x (head (omap (roundTrip x) (seqZ 1 (Z.min 17 (digitCount x))))).

Fixpoint dropTrailingZeros (s : string) : string :=
  match s with
  | EmptyString => EmptyString
  | String a r =>
      match dropTrailingZeros r with
      | EmptyString => if Ascii.eqb a "0" then EmptyString else String a EmptyString
      | r' => String a r'
      end
  end.

(** [z.toString()] for an integer-valued double [z]: all its digits up to
    2^53; from there on the shortest digits that read back as [z], padded
    with zeros while that takes at most 21 digits and in exponent form
    beyond. *)
Definition numberToString (z : Z) : string :=
  let a := Z.abs z in
  if a <? 2 ^ 53 then pretty z
  else
    let sign := if z <? 0 then "-" else "" in
    let digits := pretty (shortestDigits a) in
    if Z.of_nat (String.length digits) <=? 21 then sign +:+ digits
    else
      let exp := "e+" +:+ pretty (Z.of_nat (String.length digits) - 1) in
      match dropTrailingZeros digits with
      | String d EmptyString => sign +:+ String d exp
      | String d rest => sign +:+ String d ("." +:+ rest +:+ exp)
      | EmptyString => sign +:+ digits
      end.

Definition isNaN (n : number) : bool :=
  match n with NaN => true | Num _ => false end.

(** Template-literal conversion [`${n}`]. *)
Definition showNumber (n : number) : string :=
  match n with NaN => "NaN" | Num z => numberToString z end.

(** White space and line terminators skipped by [parseInt]
    (StrWhiteSpaceChar).  A string holds the UTF-8 bytes of the text, so
    besides the one-byte characters (tab, LF, VT, FF, CR, space) there are
    the two-byte U+00A0 and the three-byte U+1680, U+2000..U+200A, U+2028,
    U+2029, U+202F, U+205F, U+3000 and U+FEFF. *)
Definition isWhiteSpace (a : ascii) : bool :=
  let c := Z.of_N (N_of_ascii a) in
  (c =? 32) || ((9 <=? c) && (c <=? 13)).

Definition isWhiteSpace2 (a b : ascii) : bool :=
  (Z.of_N (N_of_ascii a) =? 194) && (Z.of_N (N_of_ascii b) =? 160).

Definition isWhiteSpace3 (a b c : ascii) : bool :=
  let x := Z.of_N (N_of_ascii a) in
  let y := Z.of_N (N_of_ascii b) in
  let z := Z.of_N (N_of_ascii c) in
  ((x =? 225) && (y =? 154) && (z =? 128))
  || ((x =? 226) && (y =? 128)
      && (((128 <=? z) && (z <=? 138)) || (z =? 168) || (z =? 169) || (z =? 175)))
  || ((x =? 226) && (y =? 129) && (z =? 159))
  || ((x =? 227) && (y =? 128) && (z =? 128))
  || ((x =? 239) && (y =? 187) && (z =? 191)).

Fixpoint trimStart (s : string) : string :=
  match s with
  | String a r =>
      if isWhiteSpace a then trimStart r
      else
        match r with
        | String b r2 =>
            if isWhiteSpace2 a b then trimStart r2
            else
              match r2 with
              | String c r3 => if isWhiteSpace3 a b c then trimStart r3 else s
              | EmptyString => s
              end
        | EmptyString => s
        end
  | EmptyString => s
  end.

Definition digitValue (a : ascii) : option Z :=
  let c := Z.of_N (N_of_ascii a) in
  if (48 <=? c) && (c <=? 57) then Some (c - 48) else None.

(** Longest prefix of decimal digits; [None] when there is none. *)
Fixpoint digitsPrefix (s : string) (acc : option Z) : option Z :=
  match s with
  | String a r =>
      match digitValue a with
      | Some d => digitsPrefix r (Some (10 * default 0 acc + d))
      | None => acc
      end
  | EmptyString => acc
  end.

(** [parseInt(s, 10)]: skip white space, read an optional sign, then the
    longest run of digits; [NaN] when no digit follows, else the value of
    the digits as a double. *)
Definition parseInt (s : string) : number :=
  let s1 := trimStart s in
  let '(sign, s2) :=
    match s1 with
    | String a r =>
        if Ascii.eqb a "-"%char then (-1, r)
        else if Ascii.eqb a "+"%char then (1, r)
        else (1, s1)
    | EmptyString => (1, s1)
    end in
  match digitsPrefix s2 None with
  | Some z => Num (toDouble (sign * z))
  | None => NaN
  end.

Definition hexValue (a : ascii) : option Z :=
  let c := Z.of_N (N_of_ascii a) in
  if (48 <=? c) && (c <=? 57) then Some (c - 48)
  else if (97 <=? c) && (c <=? 102) then Some (c - 87)
  else if (65 <=? c) && (c <=? 70) then Some (c - 55)
  else None.

(** Longest prefix of hexadecimal digits; [None] when there is none. *)
Fixpoint hexDigitsPrefix (s : string) (acc : option Z) : option Z :=
  match s with
  | String a r =>
      match hexValue a with
      | Some d => hexDigitsPrefix r (Some (16 * default 0 acc + d))
      | None => acc
      end
  | EmptyString => acc
  end.

(** [Number.parseInt(s)] with no radix: as [parseInt(s, 10)], except that
    after the sign a [0x] or [0X] switches to hexadecimal digits. *)
Definition parseIntAuto (s : string) : number :=
  let s1 := trimStart s in
  let '(sign, s2) :=
    match s1 with
    | String a r =>
        if Ascii.eqb a "-"%char then (-1, r)
        else if Ascii.eqb a "+"%char then (1, r)
        else (1, s1)
    | EmptyString => (1, s1)
    end in
  let digits :=
    match s2 with
    | String z (String x r) =>
        if Ascii.eqb z "0"%char && (Ascii.eqb x "x"%char || Ascii.eqb x "X"%char)
        then hexDigitsPrefix r None
        else digitsPrefix s2 None
    | _ => digitsPrefix s2 None
    end in
  match digits with
  | Some z => Num (toDouble (sign * z))
  | None => NaN
  end.

(** Parsed JSON documents and the literal objects handed to
    [JSON.stringify]. *)
Inductive json :=
| JNull
| JBool (b : bool)
| JNum (n : number)
| JStr (s : string)
| JArr (items : list json)
| JObj (fields : list (string * json)).

(** What a [throw] or a rejected promise carries: an [Error] object with
    its [message], or some other value with its [String(...)] rendering. *)
Inductive thrown :=
| ErrorObj (message : string)
| Thrown (text : string).

(** [error instanceof Error ? error.message : String(error)] *)
Definition errorMessage (error : thrown) : string :=
  match error with
  | ErrorObj message => message
  | Thrown text => text
  end.

Inductive Result (A : Type) :=
| Ok (a : A)
| Throw (e : thrown).
Arguments Ok {A} a.
Arguments Throw {A} e.

Fixpoint assoc (k : string) (fields : list (string * json)) : option json :=
  match fields with
  | [] => None
  | (k', v) :: rest => if String.eqb k k' then Some v else assoc k rest
  end.

(** Property read [v.k]; [None] is [undefined].  Reading a property of
    [null] is a [TypeError]. *)
Definition getProp (v : json) (k : string) : Result (option json) :=
  match v with
  | JNull =>
      Throw (ErrorObj ("Cannot read properties of null (reading '" +:+ k +:+ "')"))
  | JObj fields => Ok (assoc k fields)
  | _ => Ok None
  end.

Definition truthy (v : option json) : bool :=
  match v with
  | None => false
  | Some JNull => false
  | Some (JBool b) => b
  | Some (JNum NaN) => false
  | Some (JNum (Num z)) => negb (z =? 0)
  | Some (JStr s) => negb (String.eqb s "")
  | Some (JArr _) | Some (JObj _) => true
  end.

(** [a === b] for two values that come from different [JSON.parse] calls:
    primitives compare by value, [NaN] differs from itself, and two
    objects or arrays are never the same reference. *)
Definition strictEq (a b : option json) : bool :=
  match a, b with
  | None, None => true
  | Some JNull, Some JNull => true
  | Some (JBool x), Some (JBool y) => Bool.eqb x y
  | Some (JNum (Num x)), Some (JNum (Num y)) => x =? y
  | Some (JStr x), Some (JStr y) => String.eqb x y
  | _, _ => false
  end.

End Js.
Export Js.

(** ** Requests, responses and the outside world *)

(** The two connection pools of [http-client.ts]. *)
Inductive Agent := keepAliveAgent | keepAliveHttpsAgent.

(** The part of [RequestInit] the code fills in.  [body] is the value given
    to [JSON.stringify]; [agent] is absent on a plain [fetch]. *)
Record RequestInit := {
  method : option string;
  headers : list (string * string);
  body : option json;
  agent : option Agent;
}.

(** [init = {}] *)
Definition emptyInit : RequestInit :=
  {| method := None; headers := []; body := None; agent := None |}.

Record Response := {
  status : Z;
  json_body : Result json;      (* outcome of [response.json()] *)
}.

(** [response.ok] *)
Definition ok (response : Response) : bool :=
  (200 <=? status response) && (status response <=? 299).

Record Settings := {
  CLAUDE_MEM_WORKER_PORT : string;
  CLAUDE_MEM_WORKER_HOST : string;
}.

(** Everything outside the module that one synchronous stretch of code
    consults.  The collaborators [SettingsDefaultsManager], [getSessionId],
    [readJsonFromStdin] and [isPortAvailableAtTcpLevel] are not part of the
    translated sources and appear here through what they hand back:
    - [loadFromFile] stands for computing [settingsPath] and loading it, and
      may throw;
    - [readJsonFromStdin] stands for the dynamic import of the stdin reader
      followed by the read, and may throw;
    - [isPortAvailableAtTcpLevel] answers whether a port is free at the TCP
      level and stays put while a search is running. *)
Record World := {
  env : gmap string string;                    (* [process.env] *)
  now : Z;                                     (* [Date.now()] *)
  loadFromFile : Result Settings;              (* [SettingsDefaultsManager.loadFromFile(settingsPath)] *)
  readPackageJson : Result json;               (* [JSON.parse(readFileSync(packageJsonPath, 'utf-8'))] *)
  getSessionId : Result string;
  readJsonFromStdin : Result json;
  network : string -> RequestInit -> Result Response;   (* how [fetch(url, init)] settles *)
  isPortAvailableAtTcpLevel : Z -> string -> bool;
  cwd : string;                                (* [process.cwd()] *)
}.

Inductive Event :=
| LoadFromFile
| ReadPackageJson
| ReadStdin
| Fetch (url : string) (init : RequestInit)
| TcpProbe (port : Z) (host : string)
| ConsoleLog (v : json)
| ConsoleError (v : json)
| LoggerDebug (component message : string) (data : list (string * option json))
| LoggerWarn (component message : string).

(** ** Module state and the effect monad *)

(** [let cachedPort], [let cachedHost], [let cacheTime] of worker-utils. *)
Record Cache := {
  cachedPort : option number;     (* [None] is [null] *)
  cachedHost : option string;
  cacheTime : Z;
}.

Definition initialCache : Cache :=
  {| cachedPort := None; cachedHost := None; cacheTime := 0 |}.

Definition CACHE_TTL : Z := 60000.

Record Outcome (A : Type) := MkOutcome {
  result : Result A;
  cache : Cache;
  events : list Event;
}.
Arguments result {A} _.
Arguments cache {A} _.
Arguments events {A} _.
Arguments MkOutcome {A} _ _ _.

Module Eff.

Definition M (A : Type) : Type := Cache -> Outcome A.

Definition ret {A} (a : A) : M A :=
  fun c => {| result := Ok a; cache := c; events := [] |}.

Definition throw {A} (e : thrown) : M A :=
  fun c => {| result := Throw e; cache := c; events := [] |}.

Definition bind {A B} (m : M A) (k : A -> M B) : M B :=
  fun c =>
    let 'MkOutcome r c1 evs1 := m c in
    match r with
    | Ok a =>
        let 'MkOutcome r2 c2 evs2 := k a c1 in
        {| result := r2; cache := c2; events := evs1 ++ evs2 |}
    | Throw e => {| result := Throw e; cache := c1; events := evs1 |}
    end.

(** [try { m } catch (e) { h e }] *)
Definition try_catch {A} (m : M A) (h : thrown -> M A) : M A :=
  fun c =>
    let 'MkOutcome r c1 evs1 := m c in
    match r with
    | Ok a => {| result := Ok a; cache := c1; events := evs1 |}
    | Throw e =>
        let 'MkOutcome r2 c2 evs2 := h e c1 in
        {| result := r2; cache := c2; events := evs1 ++ evs2 |}
    end.

Definition emit (e : Event) : M unit :=
  fun c => {| result := Ok tt; cache := c; events := [e] |}.

(** An outside call that may throw, recorded as [e]. *)
Definition call {A} (e : Event) (r : Result A) : M A :=
  fun c => {| result := r; cache := c; events := [e] |}.

(** A pure expression that may throw. *)
Definition lift {A} (r : Result A) : M A :=
  fun c => {| result := r; cache := c; events := [] |}.

Definition get : M Cache :=
  fun c => {| result := Ok c; cache := c; events := [] |}.

Definition put (c' : Cache) : M unit :=
  fun _ => {| result := Ok tt; cache := c'; events := [] |}.

End Eff.
Import Eff.

Notation "'let*' x ':=' m 'in' k" := (bind m (fun x => k))
  (at level 10, x pattern, m at level 100, k at level 200).
Notation "m ';;' k" := (bind m (fun _ => k))
  (at level 100, k at level 200, right associativity).

(** ** src/shared/http-client.ts *)

Module HttpClient.

Definition fetch (w : World) (url : string) (init : RequestInit) : M Response :=
  call (Fetch url init) (network w url init).

Definition fetchKeepAlive (w : World) (url : string) (init : RequestInit) : M Response :=
  let isHttps := String.prefix "https://" url in
  let agent' := if isHttps then keepAliveHttpsAgent else keepAliveAgent in
  fetch w url
    {| method := method init; headers := headers init; body := body init;
       agent := Some agent' |}.

End HttpClient.
Import HttpClient.

(** ** src/shared/worker-utils.ts *)

Module WorkerUtils.

Definition getWorkerPort (w : World) : M number :=
  let fromCacheOrFile : M number :=
    let* c := get in
    let now := now w in
    let reload : M number :=
      let* settings := call LoadFromFile (loadFromFile w) in
      let port := parseInt (CLAUDE_MEM_WORKER_PORT settings) in
      put {| cachedPort := Some port; cachedHost := cachedHost c; cacheTime := now |} ;;
      ret port in
    match cachedPort c with
    | Some port => if now - cacheTime c <? CACHE_TTL then ret port else reload
    | None => reload
    end in
  match env w !! "CLAUDE_MEM_WORKER_PORT" with
  | Some v =>
      if negb (String.eqb v "") then
        let envPort := parseInt v in
        if negb (isNaN envPort) then ret envPort else fromCacheOrFile
      else fromCacheOrFile
  | None => fromCacheOrFile
  end.

Definition getWorkerHost (w : World) : M string :=
  let* c := get in
  match cachedHost c with
  | Some host => ret host
  | None =>
      let* settings := call LoadFromFile (loadFromFile w) in
      let host := CLAUDE_MEM_WORKER_HOST settings in
      put {| cachedPort := cachedPort c; cachedHost := Some host; cacheTime := cacheTime c |} ;;
      ret host
  end.

Definition clearPortCache : M unit :=
  let* c := get in
  put {| cachedPort := None; cachedHost := None; cacheTime := cacheTime c |}.



Definition isWorkerHealthy (w : World) : M bool :=
  let* port := getWorkerPort w in
  let* response :=
    fetchKeepAlive w ("http://127.0.0.1:" +:+ showNumber port +:+ "/api/health") emptyInit in
  ret (ok response).

Definition getPluginVersion (w : World) : M (option json) :=
  let* packageJson := call ReadPackageJson (readPackageJson w) in
  lift (getProp packageJson "version").

Definition getWorkerVersion (w : World) : M (option json) :=
  let* port := getWorkerPort w in
  let* response :=
    fetchKeepAlive w ("http://127.0.0.1:" +:+ showNumber port +:+ "/api/version") emptyInit in
  if negb (ok response) then
    throw (ErrorObj ("Failed to get worker version: " +:+ pretty (status response)))
  else
    let* data := lift (json_body response) in
    lift (getProp data "version").

Definition checkWorkerVersion (w : World) : M unit :=
  let* pluginVersion := getPluginVersion w in
  let* workerVersion := getWorkerVersion w in
  if negb (strictEq pluginVersion workerVersion) then
    emit (LoggerDebug "SYSTEM" "Version check"
            [("pluginVersion", pluginVersion);
             ("workerVersion", workerVersion);
             ("note", Some (JStr "Mismatch will be auto-restarted by worker-service start command"))])
  else ret tt.

(** [w] is the world at the liveness probe, [w'] the world after that
    request has settled, when the version check runs.  The [try] block
    yields [true] exactly when it reaches [return true]. *)
Definition ensureWorkerRunning (w w' : World) : M bool :=
  let* returned :=
    try_catch
      (let* healthy := isWorkerHealthy w in
       if (healthy : bool) then
         checkWorkerVersion w' ;;
         ret true
       else ret false)
      (fun e =>
         emit (LoggerDebug "SYSTEM" "Worker health check failed"
                 [("error", Some (JStr (errorMessage e)))]) ;;
         ret false) in
  if (returned : bool) then ret true
  else
    emit (LoggerWarn "SYSTEM" "Worker not healthy, hook will proceed gracefully") ;;
    ret false.

End WorkerUtils.
Import WorkerUtils.

(** ** src/hooks *)

Module Hooks.

Definition jsonPost (payload : json) : RequestInit :=
  {| method := Some "POST";
     headers := [("Content-Type", "application/json")];
     body := Some payload;
     agent := None |}.

Definition handleStop (w : World) : M Z :=
  try_catch
    (let* sessionId := lift (getSessionId w) in
     let* port := getWorkerPort w in
     let* response :=
       fetch w ("http://127.0.0.1:" +:+ showNumber port +:+ "/api/sessions/"
                  +:+ sessionId +:+ "/prepare")
             (jsonPost (JObj [])) in
     if negb (ok response) then
       throw (ErrorObj ("Failed to prepare session: " +:+ pretty (status response)))
     else
       emit (ConsoleLog (JObj [("continue", JBool false);
                               ("suppressOutput", JBool true);
                               ("message", JStr "Session stopped")])) ;;
       ret 0)
    (fun error =>
       emit (ConsoleError (JObj [("error", JStr (errorMessage error));
                                 ("exitCode", JNum (Num 2))])) ;;
       ret 2).

Definition handleSessionEnd (w : World) : M Z :=
  try_catch
    (let* sessionId := lift (getSessionId w) in
     let* port := getWorkerPort w in
     let* response :=
       fetch w ("http://127.0.0.1:" +:+ showNumber port +:+ "/api/sessions/"
                  +:+ sessionId +:+ "/compress")
             (jsonPost (JObj [])) in
     if negb (ok response) then
       throw (ErrorObj ("Failed to compress session: " +:+ pretty (status response)))
     else
       emit (ConsoleLog (JObj [("continue", JBool false);
                               ("suppressOutput", JBool true);
                               ("message", JStr "Session compressed and stored")])) ;;
       ret 0)
    (fun error =>
       emit (ConsoleError (JObj [("error", JStr (errorMessage error));
                                 ("exitCode", JNum (Num 2))])) ;;
       ret 2).

Definition handleUserPromptSubmit (w : World) : M Z :=
  try_catch
    (let* sessionId := lift (getSessionId w) in
     let* input := call ReadStdin (readJsonFromStdin w) in
     let* port := getWorkerPort w in
     let* prompt := lift (getProp input "prompt") in
     let* response :=
       fetchKeepAlive w ("http://127.0.0.1:" +:+ showNumber port +:+ "/api/sessions/"
                           +:+ sessionId +:+ "/prompt")
             (jsonPost (JObj [("prompt", if truthy prompt then default input prompt
                                         else input)])) in
     if negb (ok response) then
       throw (ErrorObj ("Failed to save prompt: " +:+ pretty (status response)))
     else
       emit (ConsoleLog (JObj [("continue", JBool true);
                               ("suppressOutput", JBool false);
                               ("exitCode", JNum (Num 3))])) ;;
       ret 3)
    (fun error =>
       emit (ConsoleError (JObj [("error", JStr (errorMessage error));
                                 ("exitCode", JNum (Num 2))])) ;;
       ret 2).

Definition handlePostToolUse (w : World) : M Z :=
  try_catch
    (let* sessionId := lift (getSessionId w) in
     let* input := call ReadStdin (readJsonFromStdin w) in
     let* port := getWorkerPort w in
     let* response :=
       fetch w ("http://127.0.0.1:" +:+ showNumber port +:+ "/api/sessions/"
                  +:+ sessionId +:+ "/observation")
             (jsonPost (JObj [("observation", input)])) in
     if negb (ok response) then
       throw (ErrorObj ("Failed to save observation: " +:+ pretty (status response)))
     else
       emit (ConsoleLog (JObj [("continue", JBool true);
                               ("suppressOutput", JBool false);
                               ("exitCode", JNum (Num 3))])) ;;
       ret 3)
    (fun error =>
       emit (ConsoleError (JObj [("error", JStr (errorMessage error));
                                 ("exitCode", JNum (Num 2))])) ;;
       ret 2).

(** [src/hooks/session-start.ts].  The port comes from [WORKER_PORT] (or
    the literal default), not from [getWorkerPort], and the status of the
    answer is not looked at: the body is parsed and handed on. *)
Definition handleSessionStart (w : World) : M Z :=
  try_catch
    (let* sessionId := lift (getSessionId w) in
     let port :=
       parseIntAuto
         (match env w !! "WORKER_PORT" with
          | Some v => if String.eqb v "" then "37777" else v
          | None => "37777"
          end) in
     let* response :=
       fetchKeepAlive w ("http://127.0.0.1:" +:+ showNumber port +:+ "/api/sessions/init")
             (jsonPost (JObj [("sessionId", JStr sessionId);
                              ("project", JStr (cwd w));
                              ("prompt", JStr "")])) in
     let* context := lift (json_body response) in
     emit (ConsoleLog (JObj [("continue", JBool true);
                             ("suppressOutput", JBool true);
                             ("inject", context)])) ;;
     ret 0)
    (fun error =>
       emit (ConsoleError (JObj [("error", JStr (errorMessage error));
                                 ("exitCode", JNum (Num 2))])) ;;
       ret 2).

(** The five call sites, for statements that range over all of them. *)
Inductive Handler := SessionStart | Stop | SessionEnd | UserPromptSubmit | PostToolUse.

Definition handle (h : Handler) : World -> M Z :=
  match h with
  | SessionStart => handleSessionStart
  | Stop => handleStop
  | SessionEnd => handleSessionEnd
  | UserPromptSubmit => handleUserPromptSubmit
  | PostToolUse => handlePostToolUse
  end.

End Hooks.
Import Hooks.

(** ** [fetchWithTimeout]: the promise, its timer and the event loop *)

Module FetchTimeout.

Inductive Promise :=
| Pending
| Fulfilled (response : Response)
| Rejected (reason : thrown).

Inductive Timer := Armed | Cleared | Fired.

(** The promise returned by [fetchWithTimeout], the timer behind
    [timeoutId] with the delay it was given, and the time at which the
    promise settled. *)
Record Race := {
  promise : Promise;
  timeoutId : Timer;
  delay : Z;
  settledAt : option Z;
}.

(** State once the executor has run: [setTimeout(..., timeoutMs)] has armed
    the timer with that delay and the request is in flight. *)
Definition started (timeoutMs : Z) : Race :=
  {| promise := Pending; timeoutId := Armed; delay := timeoutMs; settledAt := None |}.

(** [resolve]/[reject] of a promise act only while it is pending. *)
Definition resolve (t : Z) (response : Response) (st : Race) : Race :=
  match promise st with
  | Pending => {| promise := Fulfilled response; timeoutId := timeoutId st;
                  delay := delay st; settledAt := Some t |}
  | _ => st
  end.

Definition reject (t : Z) (reason : thrown) (st : Race) : Race :=
  match promise st with
  | Pending => {| promise := Rejected reason; timeoutId := timeoutId st;
                  delay := delay st; settledAt := Some t |}
  | _ => st
  end.

(** [clearTimeout(timeoutId)]: cancels an armed timer, otherwise nothing. *)
Definition clearTimeout (st : Race) : Race :=
  match timeoutId st with
  | Armed => {| promise := promise st; timeoutId := Cleared;
                delay := delay st; settledAt := settledAt st |}
  | _ => st
  end.

Definition timeoutError (timeoutMs : Z) : thrown :=
  ErrorObj ("Request timed out after " +:+ numberToString timeoutMs +:+ "ms").

(** The three callbacks the function registers. *)
Definition onTimeout (timeoutMs t : Z) (st : Race) : Race :=
  reject t (timeoutError timeoutMs) st.

Definition onFulfilled (t : Z) (response : Response) (st : Race) : Race :=
  resolve t response (clearTimeout st).

Definition onRejected (t : Z) (err : thrown) (st : Race) : Race :=
  reject t err (clearTimeout st).

(** What the event loop can hand to this call, each at a time [t] counted
    in ms from the call: the timer coming due, or the request settling. *)
Inductive Tick :=
| TimerDue (t : Z)
| FetchFulfils (t : Z) (response : Response)
| FetchRejects (t : Z) (err : thrown).

(** The timer callback only runs if the timer is still armed. *)
Definition deliver (timeoutMs : Z) (st : Race) (tick : Tick) : Race :=
  match tick with
  | TimerDue t =>
      match timeoutId st with
      | Armed =>
          onTimeout timeoutMs t
            {| promise := promise st; timeoutId := Fired;
               delay := delay st; settledAt := settledAt st |}
      | _ => st
      end
  | FetchFulfils t response => onFulfilled t response st
  | FetchRejects t err => onRejected t err st
  end.

Definition fetchWithTimeout (timeoutMs : Z) (ticks : list Tick) : Race :=
  fold_left (deliver timeoutMs) ticks (started timeoutMs).

(** What the runtime promises about timers: an armed timer is run no
    earlier than the delay it was armed with and no later than that delay
    plus the scheduling slack.  [onSchedule slack st tick] says that
    delivering [tick] in state [st] keeps that promise. *)
Definition onSchedule (slack : Z) (st : Race) (tick : Tick) : bool :=
  match tick, timeoutId st with
  | TimerDue t, Armed => (delay st <=? t) && (t <=? delay st + slack)
  | _, _ => true
  end.

(** A whole run keeps the promise: every delivery does, in the state the
    code has reached by then. *)
Fixpoint scheduled (slack timeoutMs : Z) (st : Race) (ticks : list Tick) : bool :=
  match ticks with
  | [] => true
  | tick :: rest =>
      onSchedule slack st tick && scheduled slack timeoutMs (deliver timeoutMs st tick) rest
  end.


(** Settled promise, timer no longer armed. *)
Definition quiescent (st : Race) : Prop :=
  promise st <> Pending /\ timeoutId st <> Armed.

End FetchTimeout.

(** ** Reading the event list *)

Module Observe.

Definition isLoad (e : Event) : bool :=
  match e with LoadFromFile => true | _ => false end.

(** Number of settings-file reads among the events. *)
Definition diskReads (evs : list Event) : nat := length (filter isLoad evs).

(** The requests issued, in order. *)
Definition fetches (evs : list Event) : list (string * RequestInit) :=
  omap (fun e => match e with Fetch url init => Some (url, init) | _ => None end) evs.


(** Lines written with [console.log] and with [console.error]. *)
Definition stdout (evs : list Event) : list json :=
  omap (fun e => match e with ConsoleLog v => Some v | _ => None end) evs.

Definition stderr (evs : list Event) : list json :=
  omap (fun e => match e with ConsoleError v => Some v | _ => None end) evs.

(** The line a handler writes to the error stream for a failure with
    message [msg]. *)
Definition errorReport (msg : string) : json :=
  JObj [("error", JStr msg); ("exitCode", JNum (Num 2))].

(** Exit code the specification assigns to a successful worker call. *)
Definition successCode (h : Handler) : Z :=
  match h with
  | SessionStart | Stop | SessionEnd => 0
  | UserPromptSubmit | PostToolUse => 3
  end.

(** The transport the specification's step 3 requires of a request. *)
Definition viaKeepAlive (request : string * RequestInit) : Prop :=
  agent (snd request)
  = Some (if String.prefix "https://" (fst request)
          then keepAliveHttpsAgent else keepAliveAgent).

(** The same world with another [process.env]. *)
Definition withEnv (e : gmap string string) (w : World) : World :=
  {| env := e; now := now w; loadFromFile := loadFromFile w;
     readPackageJson := readPackageJson w; getSessionId := getSessionId w;
     readJsonFromStdin := readJsonFromStdin w; network := network w;
     isPortAvailableAtTcpLevel := isPortAvailableAtTcpLevel w;
     cwd := cwd w |}.

(** The same world at another time. *)
Definition atTime (t : Z) (w : World) : World :=
  {| env := env w; now := t; loadFromFile := loadFromFile w;
     readPackageJson := readPackageJson w; getSessionId := getSessionId w;
     readJsonFromStdin := readJsonFromStdin w; network := network w;
     isPortAvailableAtTcpLevel := isPortAvailableAtTcpLevel w;
     cwd := cwd w |}.

(** Outcome of the reload branch of [getWorkerPort]. *)
Definition reloaded (w : World) (c : Cache) : Outcome number :=
  match loadFromFile w with
  | Ok settings =>
      let port := parseInt (CLAUDE_MEM_WORKER_PORT settings) in
      {| result := Ok port;
         cache := {| cachedPort := Some port; cachedHost := cachedHost c;
                     cacheTime := now w |};
         events := [LoadFromFile] |}
  | Throw e => {| result := Throw e; cache := c; events := [LoadFromFile] |}
  end.

(** The override in force, if any. *)
Definition portOverride (w : World) : option Z :=
  match env w !! "CLAUDE_MEM_WORKER_PORT" with
  | Some v => match parseInt v with Num p => Some p | NaN => None end
  | None => None
  end.

(** A run of [getWorkerHost] calls, one per world, threading the cache. *)
Fixpoint hostCalls (ws : list World) (c : Cache) : list (Outcome string) :=
  match ws with
  | [] => []
  | w :: rest =>
      let o := getWorkerHost w c in
      o :: hostCalls rest (cache o)
  end.

End Observe.
Import Observe.

(** ** Sample worlds *)

Module Sample.

Definition settings : Settings :=
  {| CLAUDE_MEM_WORKER_PORT := "37777"; CLAUDE_MEM_WORKER_HOST := "127.0.0.1" |}.

(** A worker that answers every request with [code] and an empty object. *)
Definition answering (code : Z) : string -> RequestInit -> Result Response :=
  fun _ _ => Ok {| status := code; json_body := Ok (JObj []) |}.

(** No listener: every request is refused. *)
Definition refusing : string -> RequestInit -> Result Response :=
  fun _ _ => Throw (ErrorObj "fetch failed").

Definition world (net : string -> RequestInit -> Result Response) : World :=
  {| env := ∅;
     now := 1700000000000;
     loadFromFile := Ok settings;
     readPackageJson := Ok (JObj [("version", JStr "9.1.2")]);
     getSessionId := Ok "abc";
     readJsonFromStdin := Ok (JObj [("prompt", JStr "hello")]);
     network := net;
     isPortAvailableAtTcpLevel := fun port _ => 37779 <=? port;
     cwd := "/home/dev/project" |}.

(** Healthy listener whose [/api/version] endpoint answers 500. *)
Definition versionBroken : string -> RequestInit -> Result Response :=
  fun url _ =>
    if String.eqb url "http://127.0.0.1:37777/api/health"
    then Ok {| status := 200; json_body := Ok (JObj [("status", JStr "ok")]) |}
    else Ok {| status := 500; json_body := Throw (ErrorObj "Unexpected end of JSON input") |}.

(** A worker whose session routes fail: every request is answered 500
    with a JSON error document. *)
Definition erring : string -> RequestInit -> Result Response :=
  fun _ _ =>
    Ok {| status := 500;
          json_body := Ok (JObj [("error", JStr "Internal Server Error")]) |}.

(** Environment carrying both a port and a host entry. *)
Definition overridden : World :=
  withEnv {[ "CLAUDE_MEM_WORKER_PORT" := "40000";
             "CLAUDE_MEM_WORKER_HOST" := "10.0.0.5" ]} (world refusing).

End Sample.

(** ** src/utils/format.ts *)

Module Format.

(** [\d] *)
Definition isDigit (a : ascii) : bool :=
  let c := Z.of_N (N_of_ascii a) in
  (48 <=? c) && (c <=? 57).

(** [\w] *)
Definition isWordChar (a : ascii) : bool :=
  let c := Z.of_N (N_of_ascii a) in
  isDigit a || ((65 <=? c) && (c <=? 90)) || ((97 <=? c) && (c <=? 122)) || (c =? 95).

(** [\B] at a position, given the characters on either side; [None] is the
    start or the end of the string. *)
Definition notWordBoundary (prev next : option ascii) : bool :=
  Bool.eqb (from_option isWordChar false prev) (from_option isWordChar false next).

(** [(?!\d)] *)
Definition noDigitAhead (s : string) : bool :=
  match s with
  | String a _ => negb (isDigit a)
  | EmptyString => true
  end.

(** [(\d{3})+(?!\d)] matched at the start of [s]: one group of three
    digits, then either the negative lookahead holds or more groups follow. *)
Fixpoint groupsAhead (s : string) : bool :=
  match s with
  | String a (String b (String c rest)) =>
      isDigit a && isDigit b && isDigit c && (noDigitAhead rest || groupsAhead rest)
  | _ => false
  end.

(** [s.replace(/\B(?=(\d{3})+(?!\d))/g, ',')], scanning left to right;
    [prev] is the character before the current position. *)
Fixpoint insertSeparators (prev : option ascii) (s : string) : string :=
  match s with
  | EmptyString => EmptyString
  | String a rest =>
      let tail := String a (insertSeparators (Some a) rest) in
      if notWordBoundary prev (Some a) && groupsAhead s
      then String "," tail
      else tail
  end.

(** [formatNumber] on what [num.toString()] produced. *)
Definition formatString (text : string) : string := insertSeparators None text.

(** [formatNumber(num)] for an integer-valued [num]. *)
Definition formatNumber (num : Z) : string := formatString (numberToString num).

End Format.
Import Format.

(** ** scripts/test-performance.js *)

Module PerfScript.

(** [results] holds the entries of the record in the order
    [Object.values] lists them (hook names, in insertion order), each with
    its duration in ms.  The sum and the quotient are computed on
    doubles. *)
Definition calculateAverage (results : list (string * Z)) : Z :=
  let values := results.*2 in
  if decide (length values = 0%nat) then 0
  else
    let sum := foldl addDoubles 0 values in
    mathRound (divideDoubles sum (Z.of_nat (length values))).

End PerfScript.
Import PerfScript.

(** ** Reading strings *)

Module Text.

Fixpoint allDigits (s : string) : bool :=
  match s with
  | String a rest => isDigit a && allDigits rest
  | EmptyString => true
  end.

(** The text without its commas. *)
Fixpoint stripCommas (s : string) : string :=
  match s with
  | String a rest =>
      if Ascii.eqb a "," then stripCommas rest else String a (stripCommas rest)
  | EmptyString => EmptyString
  end.

Fixpoint hasComma (s : string) : bool :=
  match s with
  | String a rest => Ascii.eqb a "," || hasComma rest
  | EmptyString => false
  end.

(** Three decimal digits of [r], for [0 <= r < 1000], zeros included. *)
Definition threeDigits (r : Z) : string :=
  String (pretty_N_char (Z.to_N (r `div` 100)))
    (String (pretty_N_char (Z.to_N ((r `div` 10) `mod` 10)))
       (String (pretty_N_char (Z.to_N (r `mod` 10))) "")).

End Text.
Import Text.

(** ** More ways to read a run *)

Module Inspect.

(** Messages passed to [logger.warn], in order. *)
Definition warnings (evs : list Event) : list string :=
  omap (fun e => match e with LoggerWarn _ message => Some message | _ => None end) evs.

(** Messages passed to [logger.debug], in order. *)
Definition debugMessages (evs : list Event) : list string :=
  omap (fun e => match e with LoggerDebug _ message _ => Some message | _ => None end) evs.


(** The port [handleSessionStart] posts to: [WORKER_PORT] when set and not
    empty, else the literal default, read by [Number.parseInt]. *)
Definition sessionStartPort (w : World) : number :=
  parseIntAuto
    (match env w !! "WORKER_PORT" with
     | Some v => if String.eqb v "" then "37777" else v
     | None => "37777"
     end).

(** Path each handler posts to, for a session id. *)
Definition route (h : Handler) (sessionId : string) : string :=
  match h with
  | SessionStart => "/api/sessions/init"
  | Stop => "/api/sessions/" +:+ sessionId +:+ "/prepare"
  | SessionEnd => "/api/sessions/" +:+ sessionId +:+ "/compress"
  | UserPromptSubmit => "/api/sessions/" +:+ sessionId +:+ "/prompt"
  | PostToolUse => "/api/sessions/" +:+ sessionId +:+ "/observation"
  end.

(** The request [handleSessionStart] sends for a session id. *)
Definition sessionStartRequest (w : World) (sessionId : string) : string * RequestInit :=
  ("http://127.0.0.1:" +:+ showNumber (sessionStartPort w) +:+ route SessionStart sessionId,
   {| method := Some "POST"; headers := [("Content-Type", "application/json")];
      body := Some (JObj [("sessionId", JStr sessionId);
                          ("project", JStr (cwd w));
                          ("prompt", JStr "")]);
      agent := Some keepAliveAgent |}).

(** The init [fetchKeepAlive] hands to [fetch] for a loopback URL when the
    caller passed none. *)
Definition keepAliveGet : RequestInit :=
  {| method := None; headers := []; body := None; agent := Some keepAliveAgent |}.

(** The two URLs the liveness and version checks ask for. *)
Definition healthUrl (port : number) : string :=
  "http://127.0.0.1:" +:+ showNumber port +:+ "/api/health".

Definition versionUrl (port : number) : string :=
  "http://127.0.0.1:" +:+ showNumber port +:+ "/api/version".

(** The warning [ensureWorkerRunning] logs before returning false. *)
Definition notHealthyWarning : string :=
  "Worker not healthy, hook will proceed gracefully".

(** Sum of the recorded durations, as an exact integer. *)
Definition totalDuration (results : list (string * Z)) : Z :=
  foldl Z.add 0 results.*2.

(** The integer nearest to [sum / count] in exact arithmetic, halves going
    up, for [count > 0]. *)
Definition roundedQuotient (sum count : Z) : Z := (2 * sum + count) `div` (2 * count).

(** A world whose settings file cannot be loaded. *)
Definition settingsUnreadable : World :=
  {| env := ∅;
     now := 1700000000000;
     loadFromFile := Throw (ErrorObj "ENOENT: no such file or directory");
     readPackageJson := Ok (JObj [("version", JStr "9.1.2")]);
     getSessionId := Ok "abc";
     readJsonFromStdin := Ok JNull;
     network := Sample.answering 200;
     isPortAvailableAtTcpLevel := fun _ _ => false;
     cwd := "/home/dev/project" |}.

(** A world with no override whose settings file carries [text] as the
    worker port. *)
Definition settingsPort (text : string) : World :=
  {| env := ∅;
     now := 5000;
     loadFromFile := Ok {| CLAUDE_MEM_WORKER_PORT := text;
                           CLAUDE_MEM_WORKER_HOST := "127.0.0.1" |};
     readPackageJson := Ok (JObj [("version", JStr "9.1.2")]);
     getSessionId := Ok "abc";
     readJsonFromStdin := Ok (JObj []);
     network := Sample.answering 200;
     isPortAvailableAtTcpLevel := fun _ _ => true;
     cwd := "/home/dev/project" |}.

(** Session id and port resolve, and the hook's stdin holds [null]. *)
Definition nullStdin : World :=
  {| env := {[ "CLAUDE_MEM_WORKER_PORT" := "37777" ]};
     now := 1700000000000;
     loadFromFile := Ok Sample.settings;
     readPackageJson := Ok (JObj [("version", JStr "9.1.2")]);
     getSessionId := Ok "abc";
     readJsonFromStdin := Ok JNull;
     network := Sample.answering 200;
     isPortAvailableAtTcpLevel := fun _ _ => false;
     cwd := "/home/dev/project" |}.

End Inspect.
Import Inspect.

(** * Properties *)

(** ** Stepping through the monad *)

Section Stepping.

Context {A B : Type}.

Lemma bind_eq (m : M A) (k : A -> M B) (c : Cache) :
  bind m k c =
    match result (m c) with
    | Ok a =>
        {| result := result (k a (cache (m c)));
           cache := cache (k a (cache (m c)));
           events := events (m c) ++ events (k a (cache (m c))) |}
    | Throw e => {| result := Throw e; cache := cache (m c); events := events (m c) |}
    end.
Proof.
  unfold bind. destruct (m c) as [[a|e] c1 evs1]; cbn; [destruct (k a c1)|]; reflexivity.
Qed.

Lemma try_catch_eq (m : M A) (h : thrown -> M A) (c : Cache) :
  try_catch m h c =
    match result (m c) with
    | Ok a => m c
    | Throw e =>
        {| result := result (h e (cache (m c)));
           cache := cache (h e (cache (m c)));
           events := events (m c) ++ events (h e (cache (m c))) |}
    end.
Proof.
  unfold try_catch. destruct (m c) as [[a|e] c1 evs1]; cbn; [|destruct (h e c1)]; reflexivity.
Qed.

End Stepping.

(** ** The port cache *)

Section PortCache.

Lemma parseInt_empty : parseInt "" = NaN.
Proof. reflexivity. Qed.

Lemma getWorkerPort_override (w : World) (c : Cache) (p : Z) :
  portOverride w = Some p ->
  getWorkerPort w c = {| result := Ok (Num p); cache := c; events := [] |}.
Proof.
  unfold portOverride, getWorkerPort.
  destruct (env w !! "CLAUDE_MEM_WORKER_PORT") as [v|]; [|discriminate].
  destruct (String.eqb_spec v "") as [->|_]; [rewrite parseInt_empty; discriminate|].
  destruct (parseInt v) as [|q]; [discriminate|].
  intros [= ->]. reflexivity.
Qed.

Lemma getWorkerPort_chain (w : World) (c : Cache) :
  portOverride w = None ->
  getWorkerPort w c =
    match cachedPort c with
    | Some p =>
        if now w - cacheTime c <? CACHE_TTL
        then {| result := Ok p; cache := c; events := [] |}
        else reloaded w c
    | None => reloaded w c
    end.
Proof.
  unfold portOverride, getWorkerPort. intros Hov.
  match goal with
  | |- context [if negb (isNaN _) then _ else ?m] => set (via := m)
  end.
  assert (Hvia : via c
    = match cachedPort c with
      | Some p =>
          if now w - cacheTime c <? CACHE_TTL
          then {| result := Ok p; cache := c; events := [] |}
          else reloaded w c
      | None => reloaded w c
      end).
  { subst via. unfold reloaded, bind, get, put, call, ret; cbn.
    destruct (cachedPort c) as [p|]; cbn;
      [destruct (now w - cacheTime c <? CACHE_TTL); cbn|];
      try reflexivity; destruct (loadFromFile w); reflexivity. }
  clearbody via.
  destruct (env w !! "CLAUDE_MEM_WORKER_PORT") as [v|]; [|exact Hvia].
  destruct (String.eqb_spec v "") as [->|_]; [exact Hvia|].
  destruct (parseInt v); [exact Hvia|discriminate].
Qed.

Lemma portOverride_unset (w : World) :
  env w !! "CLAUDE_MEM_WORKER_PORT" = None -> portOverride w = None.
Proof. unfold portOverride. intros ->. reflexivity. Qed.

Lemma diskReads_reloaded (w : World) (c : Cache) :
  diskReads (events (reloaded w c)) = 1%nat.
Proof. unfold reloaded. destruct (loadFromFile w); reflexivity. Qed.

Lemma getWorkerPort_fill (w : World) (c : Cache) (p : number) :
  portOverride w = None ->
  result (getWorkerPort w c) = Ok p ->
  cachedPort (cache (getWorkerPort w c)) = Some p /\
  (diskReads (events (getWorkerPort w c)) <= 1)%nat.
Proof.
  intros Hov. rewrite (getWorkerPort_chain w c Hov). unfold reloaded.
  destruct (cachedPort c) as [p0|] eqn:Hc;
    [destruct (now w - cacheTime c <? CACHE_TTL)|];
    try destruct (loadFromFile w); cbn; intros [= <-]; auto.
Qed.

End PortCache.

(** C4.  Whatever the cache holds and whatever the settings file says, when
    CLAUDE_MEM_WORKER_PORT is present in the environment and parses to a
    number, [getWorkerPort] returns that number, leaves the cache as it was
    and reads nothing; when it is present but does not parse, the call
    behaves exactly as if the variable were not set. *)
Theorem env_override_wins (w : World) (c : Cache) (v : string) :
  env w !! "CLAUDE_MEM_WORKER_PORT" = Some v ->
  match parseInt v with
  | Num p =>
      getWorkerPort w c = {| result := Ok (Num p); cache := c; events := [] |}
  | NaN =>
      getWorkerPort w c
      = getWorkerPort (withEnv (delete "CLAUDE_MEM_WORKER_PORT" (env w)) w) c
  end.
Proof.
  intros Hv. destruct (parseInt v) as [|p] eqn:Hp.
  - rewrite !getWorkerPort_chain; [reflexivity| |].
    + apply portOverride_unset. cbn. apply lookup_delete_eq.
    + unfold portOverride. rewrite Hv, Hp. reflexivity.
  - apply getWorkerPort_override. unfold portOverride. rewrite Hv, Hp. reflexivity.
Qed.

Lemma env_override_wins_witness :
  getWorkerPort
    (withEnv {[ "CLAUDE_MEM_WORKER_PORT" := "40000" ]} (Sample.world Sample.refusing))
    {| cachedPort := Some (Num 37777); cachedHost := None; cacheTime := 1699999999000 |}
  = {| result := Ok (Num 40000);
       cache := {| cachedPort := Some (Num 37777); cachedHost := None;
                   cacheTime := 1699999999000 |};
       events := [] |}.
Proof.
  exact (env_override_wins
           (withEnv {[ "CLAUDE_MEM_WORKER_PORT" := "40000" ]} (Sample.world Sample.refusing))
           {| cachedPort := Some (Num 37777); cachedHost := None;
              cacheTime := 1699999999000 |}
           "40000" eq_refl).
Defined.

(** C5.  With CLAUDE_MEM_WORKER_PORT unset: if a call [A] returns a port and
    a later call [B] comes less than CACHE_TTL after the fill that [A] used
    or made, then [B] reads nothing, returns the same port, and the two
    calls together read the settings file at most once; and a call made
    CACHE_TTL or more after the fill reads the settings file exactly once
    and returns what that read gives, not the cached port. *)
Theorem port_cache_ttl (wA wB : World) (c0 : Cache) :
  env wA !! "CLAUDE_MEM_WORKER_PORT" = None ->
  env wB !! "CLAUDE_MEM_WORKER_PORT" = None ->
  let oA := getWorkerPort wA c0 in
  let oB := getWorkerPort wB (cache oA) in
  (forall p, result oA = Ok p ->
             now wB - cacheTime (cache oA) < CACHE_TTL ->
             result oB = Ok p /\ events oB = [] /\ cache oB = cache oA /\
             (diskReads (events oA ++ events oB) <= 1)%nat)
  /\
  (CACHE_TTL <= now wA - cacheTime c0 ->
   diskReads (events oA) = 1%nat /\
   match loadFromFile wA with
   | Ok settings =>
       result oA = Ok (parseInt (CLAUDE_MEM_WORKER_PORT settings)) /\
       cachedPort (cache oA) = Some (parseInt (CLAUDE_MEM_WORKER_PORT settings)) /\
       cacheTime (cache oA) = now wA
   | Throw e => result oA = Throw e /\ cache oA = c0
   end).
Proof.
  intros HA HB oA oB. subst oA oB.
  rewrite (getWorkerPort_chain wA c0 (portOverride_unset _ HA)).
  split.
  - intros p Hres Hage.
    rewrite (getWorkerPort_chain wB _ (portOverride_unset _ HB)).
    pose proof (getWorkerPort_fill wA c0 p (portOverride_unset _ HA)) as Hfill.
    rewrite (getWorkerPort_chain wA c0 (portOverride_unset _ HA)) in Hfill.
    specialize (Hfill Hres).
    destruct Hfill as [Hport Hreads]. rewrite Hport.
    apply Z.ltb_lt in Hage. rewrite Hage. cbn.
    rewrite app_nil_r. auto.
  - intros Hold. apply Z.ltb_ge in Hold.
    assert (Hre : match cachedPort c0 with
                  | Some p0 => if now wA - cacheTime c0 <? CACHE_TTL
                               then {| result := Ok p0; cache := c0; events := [] |}
                               else reloaded wA c0
                  | None => reloaded wA c0
                  end = reloaded wA c0).
    { rewrite Hold. destruct (cachedPort c0); reflexivity. }
    rewrite Hre. split; [apply diskReads_reloaded|].
    unfold reloaded. destruct (loadFromFile wA); cbn; auto.
Qed.

Lemma port_cache_ttl_witness :
  let wA := atTime 1000 (Sample.world Sample.refusing) in
  let wB := atTime 60999 (Sample.world Sample.refusing) in
  let oA := getWorkerPort wA initialCache in
  let oB := getWorkerPort wB (cache oA) in
  (result oB = Ok (Num 37777) /\ events oB = [] /\ cache oB = cache oA /\
   (diskReads (events oA ++ events oB) <= 1)%nat)
  /\ diskReads (events (getWorkerPort (atTime 61000 wB) (cache oA))) = 1%nat.
Proof.
  intros wA wB oA oB. split.
  - apply (proj1 (port_cache_ttl wA wB initialCache eq_refl eq_refl) (Num 37777)).
    + reflexivity.
    + vm_compute. reflexivity.
  - apply (proj2 (port_cache_ttl (atTime 61000 wB) wB (cache oA) eq_refl eq_refl)).
    vm_compute. discriminate.
Defined.

(** C10.  With no usable override and no fresh cache entry, a settings value
    for the port that does not parse makes [getWorkerPort] return NaN
    without throwing and store NaN in the cache; later calls within the TTL
    are served that NaN from the cache and read nothing. *)
Theorem nan_port_is_cached (w w' : World) (c : Cache) (settings : Settings) :
  portOverride w = None ->
  portOverride w' = None ->
  (cachedPort c = None \/ CACHE_TTL <= now w - cacheTime c) ->
  loadFromFile w = Ok settings ->
  parseInt (CLAUDE_MEM_WORKER_PORT settings) = NaN ->
  now w' - now w < CACHE_TTL ->
  let o := getWorkerPort w c in
  result o = Ok NaN /\
  cachedPort (cache o) = Some NaN /\
  cacheTime (cache o) = now w /\
  events o = [LoadFromFile] /\
  getWorkerPort w' (cache o) = {| result := Ok NaN; cache := cache o; events := [] |}.
Proof.
  intros Hw Hw' Hmiss Hfile Hnan Hage o. subst o.
  rewrite (getWorkerPort_chain w c Hw).
  assert (Hre : match cachedPort c with
                | Some p0 => if now w - cacheTime c <? CACHE_TTL
                             then {| result := Ok p0; cache := c; events := [] |}
                             else reloaded w c
                | None => reloaded w c
                end = reloaded w c).
  { destruct Hmiss as [->|Hold]; [reflexivity|].
    apply Z.ltb_ge in Hold. rewrite Hold. destruct (cachedPort c); reflexivity. }
  rewrite Hre. unfold reloaded. rewrite Hfile, Hnan. cbn.
  repeat split.
  rewrite (getWorkerPort_chain w' _ Hw'). cbn.
  apply Z.ltb_lt in Hage. rewrite Hage. reflexivity.
Qed.

Lemma nan_port_is_cached_witness :
  let w := {| env := ∅; now := 5000;
              loadFromFile := Ok {| CLAUDE_MEM_WORKER_PORT := "auto";
                                    CLAUDE_MEM_WORKER_HOST := "127.0.0.1" |};
              readPackageJson := Ok JNull; getSessionId := Ok "abc";
              readJsonFromStdin := Ok JNull; network := Sample.refusing;
              isPortAvailableAtTcpLevel := fun _ _ => true;
              cwd := "/home/dev/project" |} in
  result (getWorkerPort w initialCache) = Ok NaN /\
  getWorkerPort (atTime 64999 w) (cache (getWorkerPort w initialCache))
  = {| result := Ok NaN;
       cache := {| cachedPort := Some NaN; cachedHost := None; cacheTime := 5000 |};
       events := [] |}.
Proof.
  intros w.
  destruct (nan_port_is_cached w (atTime 64999 w) initialCache
              {| CLAUDE_MEM_WORKER_PORT := "auto"; CLAUDE_MEM_WORKER_HOST := "127.0.0.1" |}
              eq_refl eq_refl (or_introl eq_refl) eq_refl eq_refl eq_refl)
    as (Hres & _ & _ & _ & Hnext).
  split; [exact Hres|exact Hnext].
Defined.

(** ** The host cache *)

Section HostCache.

Lemma getWorkerHost_hit (w : World) (c : Cache) (host : string) :
  cachedHost c = Some host ->
  getWorkerHost w c = {| result := Ok host; cache := c; events := [] |}.
Proof. intros Hc. unfold getWorkerHost, bind, get, ret; cbn. rewrite Hc. reflexivity. Qed.

Lemma getWorkerHost_miss (w : World) (c : Cache) :
  cachedHost c = None ->
  getWorkerHost w c =
    match loadFromFile w with
    | Ok settings =>
        {| result := Ok (CLAUDE_MEM_WORKER_HOST settings);
           cache := {| cachedPort := cachedPort c;
                       cachedHost := Some (CLAUDE_MEM_WORKER_HOST settings);
                       cacheTime := cacheTime c |};
           events := [LoadFromFile] |}
    | Throw e => {| result := Throw e; cache := c; events := [LoadFromFile] |}
    end.
Proof.
  intros Hc. unfold getWorkerHost, bind, get, put, call, ret; cbn. rewrite Hc.
  destruct (loadFromFile w); reflexivity.
Qed.

Lemma hostCalls_hit (ws : list World) (c : Cache) (host : string) :
  cachedHost c = Some host ->
  Forall (fun o => result o = Ok host /\ events o = [] /\ cache o = c) (hostCalls ws c).
Proof.
  intros Hc. induction ws as [|w ws IH]; cbn [hostCalls]; constructor.
  - rewrite (getWorkerHost_hit w c host Hc). auto.
  - rewrite (getWorkerHost_hit w c host Hc). exact IH.
Qed.

(** [clearPortCache] is what ends the lifetime of a cached host: the next
    call goes back to the settings file. *)
Lemma clearPortCache_forces_reload (w : World) (c : Cache) :
  events (getWorkerHost w (cache (clearPortCache c))) = [LoadFromFile] /\
  cachedPort (cache (clearPortCache c)) = None.
Proof.
  split; [|reflexivity].
  rewrite getWorkerHost_miss by reflexivity. destruct (loadFromFile w); reflexivity.
Qed.

End HostCache.

(** C8, as the code has it.  [getWorkerHost] consults no environment
    variable: its chain is the cached host, else the settings file.  Once a
    call has returned a host, that host is cached with no expiry: the call
    read the settings file at most once (exactly once when nothing was
    cached), and every later call, at whatever time and in whatever world,
    returns the same host and reads nothing, as long as [clearPortCache] is
    not called. *)
Theorem host_cached_for_process_lifetime (w : World) (c : Cache) :
  (forall e, getWorkerHost (withEnv e w) c = getWorkerHost w c) /\
  (cachedHost c = None -> events (getWorkerHost w c) = [LoadFromFile]) /\
  (forall host,
      result (getWorkerHost w c) = Ok host ->
      let c' := cache (getWorkerHost w c) in
      cachedHost c' = Some host /\
      (diskReads (events (getWorkerHost w c)) <= 1)%nat /\
      forall ws : list World,
        Forall (fun o => result o = Ok host /\ events o = [] /\ cache o = c')
               (hostCalls ws c')).
Proof.
  split; [reflexivity|]. split.
  - intros Hc. rewrite (getWorkerHost_miss w c Hc). destruct (loadFromFile w); reflexivity.
  - intros host Hres c'.
    assert (Hc' : cachedHost c' = Some host /\
                  (diskReads (events (getWorkerHost w c)) <= 1)%nat).
    { subst c'. revert Hres. destruct (cachedHost c) as [h|] eqn:Hc.
      - rewrite (getWorkerHost_hit w c h Hc). cbn. intros [= <-]. auto.
      - rewrite (getWorkerHost_miss w c Hc).
        destruct (loadFromFile w); cbn; intros [= <-]; auto. }
    destruct Hc' as [Hc' Hreads]. repeat split; trivial.
    intros ws. apply hostCalls_hit, Hc'.
Qed.

Lemma host_cached_for_process_lifetime_witness :
  let w := Sample.world Sample.refusing in
  events (getWorkerHost w initialCache) = [LoadFromFile] /\
  Forall (fun o => result o = Ok "127.0.0.1" /\ events o = [] /\
                   cache o = cache (getWorkerHost w initialCache))
         (hostCalls [atTime 1700000060000 w; atTime 1800000000000 w]
                    (cache (getWorkerHost w initialCache))).
Proof.
  intros w.
  destruct (host_cached_for_process_lifetime w initialCache) as (_ & Hfirst & Hseq).
  split; [exact (Hfirst eq_refl)|].
  destruct (Hseq "127.0.0.1" eq_refl) as (_ & _ & Hall).
  apply Hall.
Defined.

(** C8, as the specification words it, fails: with a host entry in the
    environment next to the port entry, the port call follows the
    environment while the host call returns the settings-file host. *)
Lemma host_has_no_env_override :
  env Sample.overridden !! "CLAUDE_MEM_WORKER_HOST" = Some "10.0.0.5" /\
  result (getWorkerPort Sample.overridden initialCache) = Ok (Num 40000) /\
  result (getWorkerHost Sample.overridden initialCache) = Ok "127.0.0.1" /\
  result (getWorkerHost Sample.overridden initialCache) <> Ok "10.0.0.5".
Proof. vm_compute. repeat split; discriminate. Qed.

(** ** The port search *)

Section PortSearch.

Variable w : World.
Variables (basePort : Z) (host : string).

Local Abbreviation free p := (isPortAvailableAtTcpLevel w p host).




End PortSearch.



(** ** The timeout race *)

Section TimeoutRace.
Import FetchTimeout.

Variable timeoutMs : Z.

Lemma deliver_quiescent (st : Race) (tick : Tick) :
  quiescent st -> deliver timeoutMs st tick = st.
Proof.
  intros [Hp Ht]. destruct st as [p tm d s]. cbn in *.
  destruct tick, p, tm; cbn; congruence.
Qed.

Lemma run_quiescent (ticks : list Tick) (st : Race) :
  quiescent st -> fold_left (deliver timeoutMs) ticks st = st.
Proof.
  intros Hq. induction ticks as [|tick ticks IH]; [reflexivity|].
  cbn. rewrite deliver_quiescent by exact Hq. exact IH.
Qed.

Lemma first_tick_decides (tick : Tick) (ticks : list Tick) :
  fetchWithTimeout timeoutMs (tick :: ticks) = deliver timeoutMs (started timeoutMs) tick.
Proof.
  unfold fetchWithTimeout. cbn [fold_left]. apply run_quiescent.
  destruct tick; split; discriminate.
Qed.




(** A timer delivered off schedule is not a run the runtime produces. *)
Example late_timer_is_off_schedule :
  scheduled 4 5000 (started 5000) [TimerDue 5003] = true /\
  scheduled 4 5000 (started 5000) [TimerDue 5005] = false /\
  scheduled 4 5000 (started 5000) [TimerDue 4999] = false /\
  scheduled 4 5000 (started 5000) [FetchRejects 10 (ErrorObj "fetch failed"); TimerDue 9000]
  = true.
Proof. vm_compute. auto. Qed.

End TimeoutRace.



(** ** Lifecycle hook handlers *)

Section Handlers.

Lemma getWorkerPort_events (w : World) (c : Cache) :
  events (getWorkerPort w c) = [] \/ events (getWorkerPort w c) = [LoadFromFile].
Proof.
  destruct (portOverride w) as [p|] eqn:Hov.
  - rewrite (getWorkerPort_override w c p Hov). auto.
  - rewrite (getWorkerPort_chain w c Hov). unfold reloaded.
    destruct (cachedPort c); [destruct (now w - cacheTime c <? CACHE_TTL)|];
      try destruct (loadFromFile w); auto.
Qed.

Lemma getWorkerPort_throws (w : World) (c : Cache) (e : thrown) :
  result (getWorkerPort w c) = Throw e -> loadFromFile w = Throw e.
Proof.
  destruct (portOverride w) as [p|] eqn:Hov.
  - rewrite (getWorkerPort_override w c p Hov). discriminate.
  - rewrite (getWorkerPort_chain w c Hov). unfold reloaded.
    destruct (cachedPort c); [destruct (now w - cacheTime c <? CACHE_TTL)|];
      try destruct (loadFromFile w); cbn; congruence.
Qed.

(** A loopback URL selects the plain-HTTP pool. *)
Lemma loopback_is_not_https (rest : string) :
  String.prefix "https://" ("http://127.0.0.1:" +:+ rest) = false.
Proof. reflexivity. Qed.

End Handlers.

(** Runs a handler symbolically: one case per way the outside world can
    answer at each step. *)
Ltac run_handler w c :=
  unfold handleStop, handleSessionEnd, handleUserPromptSubmit, handlePostToolUse,
         try_catch, bind, fetchKeepAlive, fetch, jsonPost;
  unfold lift, call, emit, ret, throw;
  cbn [result cache events];
  let sessionId := fresh "sessionId" in
  let Hsid := fresh "Hsid" in
  destruct (getSessionId w) as [sessionId|?] eqn:Hsid;
  cbn [result cache events];
  try (let input := fresh "input" in
       let Hin := fresh "Hin" in
       destruct (readJsonFromStdin w) as [input|?] eqn:Hin;
       cbn [result cache events]);
  try (let Hev := fresh "Hev" in
       let Hthr := fresh "Hthr" in
       pose proof (getWorkerPort_events w c) as Hev;
       pose proof (getWorkerPort_throws w c) as Hthr;
       destruct (getWorkerPort w c) as [[?|?] ? ?];
       cbn [result cache events] in *;
       (destruct Hev as [-> | ->]));
  try match goal with
      | |- context [getProp ?input "prompt"] =>
          let Hprop := fresh "Hprop" in
          destruct (getProp input "prompt") eqn:Hprop; cbn [result cache events]
      end;
  rewrite ?loopback_is_not_https;
  cbn [method headers body agent];
  try match goal with
      | |- context [network w ?url ?init] =>
          let Hnet := fresh "Hnet" in
          let Hok := fresh "Hok" in
          let response := fresh "response" in
          destruct (network w url init) as [response|?] eqn:Hnet;
          cbn [result cache events];
          [destruct (ok response) eqn:Hok; cbn [result cache events negb]|]
      end.

(** [handleSessionStart] step by step: the session id, then one request
    through the keep-alive transport, then the body of the answer. *)
Lemma handleSessionStart_eq (w : World) (c : Cache) :
  handleSessionStart w c =
    match getSessionId w with
    | Ok sessionId =>
        let request := sessionStartRequest w sessionId in
        match network w (fst request) (snd request) with
        | Ok response =>
            match json_body response with
            | Ok context =>
                {| result := Ok 0; cache := c;
                   events := [Fetch (fst request) (snd request);
                              ConsoleLog (JObj [("continue", JBool true);
                                                ("suppressOutput", JBool true);
                                                ("inject", context)])] |}
            | Throw e =>
                {| result := Ok 2; cache := c;
                   events := [Fetch (fst request) (snd request);
                              ConsoleError (errorReport (errorMessage e))] |}
            end
        | Throw e =>
            {| result := Ok 2; cache := c;
               events := [Fetch (fst request) (snd request);
                          ConsoleError (errorReport (errorMessage e))] |}
        end
    | Throw e =>
        {| result := Ok 2; cache := c;
           events := [ConsoleError (errorReport (errorMessage e))] |}
    end.
Proof.
  unfold handleSessionStart, sessionStartRequest, sessionStartPort, route, try_catch, bind, fetchKeepAlive,
         fetch, jsonPost.
  unfold lift, call, emit, ret, throw.
  cbn [result cache events fst snd].
  destruct (getSessionId w) as [sessionId|e]; cbn [result cache events]; [|reflexivity].
  rewrite loopback_is_not_https. cbn [method headers body agent].
  destruct (network w _ _) as [response|e]; cbn [result cache events]; [|reflexivity].
  destruct (json_body response) as [context|e]; reflexivity.
Qed.

(** X24.  Exit codes of the five handlers on every path.  Every handler returns
    an exit code, never lets an exception out, and issues at most one
    request.  For stop, session-end, prompt-submit and tool-observation: if
    the request is answered with a 2xx status the code is 0 (stop,
    session-end) or 3 (prompt-submit, tool-observation), one JSON object
    goes to the output stream (for prompt-submit it has [continue: true])
    and nothing to the error stream; if it is answered with another status
    the code is 2 and the error stream receives [{error, exitCode: 2}]
    ending in the HTTP status.  Session-start does not look at the status:
    whenever the body of the answer parses, the code is 0 and the body is
    written out under [inject]; when it does not parse, the code is 2.  For
    all five, a refused request or an earlier throw gives 2 with the
    message of that failure on the error stream.  No other code occurs. *)
Theorem exit_codes_of_handlers (h : Handler) (w : World) (c : Cache) :
  let o := handle h w c in
  exists code,
    result o = Ok code /\ (code = 0 \/ code = 2 \/ code = 3) /\
    match fetches (events o) with
    | [] =>
        code = 2 /\ stdout (events o) = [] /\
        exists e, stderr (events o) = [errorReport (errorMessage e)] /\
                  (getSessionId w = Throw e \/ readJsonFromStdin w = Throw e \/
                   loadFromFile w = Throw e \/
                   exists input, readJsonFromStdin w = Ok input /\
                                 getProp input "prompt" = Throw e)
    | [(url, init)] =>
        match network w url init with
        | Ok response =>
            match h with
            | SessionStart =>
                match json_body response with
                | Ok context =>
                    code = 0 /\ stderr (events o) = [] /\
                    stdout (events o) = [JObj [("continue", JBool true);
                                               ("suppressOutput", JBool true);
                                               ("inject", context)]]
                | Throw e =>
                    code = 2 /\ stdout (events o) = [] /\
                    stderr (events o) = [errorReport (errorMessage e)]
                end
            | _ =>
                if ok response then
                  code = successCode h /\ stderr (events o) = [] /\
                  exists fields,
                    stdout (events o) = [JObj fields] /\
                    match h with
                    | UserPromptSubmit => assoc "continue" fields = Some (JBool true)
                    | _ => True
                    end
                else
                  code = 2 /\ stdout (events o) = [] /\
                  exists what,
                    stderr (events o) = [errorReport (what +:+ pretty (status response))]
            end
        | Throw e =>
            code = 2 /\ stdout (events o) = [] /\
            stderr (events o) = [errorReport (errorMessage e)]
        end
    | _ :: _ :: _ => False
    end.
Proof.
  intros o. subst o.
  destruct h; cbn [handle].
  { rewrite handleSessionStart_eq.
    destruct (getSessionId w) as [sessionId|e] eqn:Hsid; cbn zeta.
    - destruct (network w _ _) as [response|e] eqn:Hnet;
        [destruct (json_body response) as [context|e] eqn:Hbody|].
      all: eexists; split; [reflexivity|]; split; [auto|].
      all: cbn [events fetches omap fst snd]; cbn -[sessionStartRequest].
      all: destruct (sessionStartRequest w sessionId) as [url init]; cbn [fst snd] in *.
      all: rewrite Hnet; rewrite ?Hbody; auto.
    - eexists; split; [reflexivity|]; split; [auto|]. cbn.
      repeat split. exists e. auto. }
  all: run_handler w c.
  all: eexists; split; [reflexivity|]; split; [auto|].
  all: cbn -[pretty String.append];
    repeat match goal with H : network _ _ _ = _ |- _ => rewrite H end;
    repeat match goal with H : ok _ = _ |- _ => rewrite H end.
  all: try (repeat split; eauto 10; fail).
  all: try (repeat split; eexists; split; [reflexivity|]; eauto 10; fail).
  all: try (repeat split; eexists; reflexivity).
Qed.

(** C1.  [handleSessionStart] against a worker that answers the request to
    [/api/sessions/init] with status 500 and a JSON error document: the
    status is never looked at, so the handler writes the success line with
    the error document under [inject], writes nothing to the error stream
    and returns 0, where the other four handlers return 2 on such an
    answer. *)
Theorem session_start_returns_0_on_http_500 :
  let w := Sample.world Sample.erring in
  let o := handleSessionStart w initialCache in
  fetches (events o)
  = [("http://127.0.0.1:37777/api/sessions/init",
      {| method := Some "POST"; headers := [("Content-Type", "application/json")];
         body := Some (JObj [("sessionId", JStr "abc");
                             ("project", JStr "/home/dev/project");
                             ("prompt", JStr "")]);
         agent := Some keepAliveAgent |})] /\
  (forall url init, exists response,
      network w url init = Ok response /\ status response = 500 /\ ok response = false) /\
  result o = Ok 0 /\
  stdout (events o)
  = [JObj [("continue", JBool true); ("suppressOutput", JBool true);
           ("inject", JObj [("error", JStr "Internal Server Error")])]] /\
  stderr (events o) = [] /\
  result (handleStop w initialCache) = Ok 2 /\
  result (handleSessionEnd w initialCache) = Ok 2 /\
  result (handleUserPromptSubmit w initialCache) = Ok 2 /\
  result (handlePostToolUse w initialCache) = Ok 2.
Proof.
  cbn zeta. split; [vm_compute; reflexivity|].
  split; [intros url init; eexists; repeat split|].
  vm_compute. auto 10.
Qed.

(** Sample runs of the other handlers: a 200 answer to prompt-submit, and a
    503 answer to session-end. *)
Example prompt_submit_200 :
  let o := handleUserPromptSubmit (Sample.world (Sample.answering 200)) initialCache in
  result o = Ok 3 /\
  stdout (events o) = [JObj [("continue", JBool true); ("suppressOutput", JBool false);
                             ("exitCode", JNum (Num 3))]] /\
  stderr (events o) = [].
Proof. vm_compute. auto. Qed.

Example session_end_503 :
  let o := handleSessionEnd (Sample.world (Sample.answering 503)) initialCache in
  result o = Ok 2 /\ stdout (events o) = [] /\
  stderr (events o) = [errorReport "Failed to compress session: 503"].
Proof. vm_compute. auto. Qed.

(** ** Liveness and version check *)

Section Liveness.

(** The request [isWorkerHealthy] issues once the port is known. *)
Lemma isWorkerHealthy_unfold (w : World) (c : Cache) :
  isWorkerHealthy w c =
    let o := getWorkerPort w c in
    match result o with
    | Ok port =>
        let url := "http://127.0.0.1:" +:+ showNumber port +:+ "/api/health" in
        let init := {| method := None; headers := []; body := None;
                       agent := Some keepAliveAgent |} in
        {| result := match network w url init with
                     | Ok response => Ok (ok response)
                     | Throw e => Throw e
                     end;
           cache := cache o;
           events := events o ++ [Fetch url init] |}
    | Throw e => {| result := Throw e; cache := cache o; events := events o |}
    end.
Proof.
  unfold isWorkerHealthy. rewrite bind_eq. cbn zeta.
  destruct (result (getWorkerPort w c)) as [port|e]; [|reflexivity].
  rewrite bind_eq. unfold fetchKeepAlive, fetch, call, ret, emptyInit.
  cbn [result cache events method headers body].
  rewrite loopback_is_not_https.
  destruct (network w _ _); cbn [app]; rewrite ?app_nil_r; reflexivity.
Qed.

Lemma ensureWorkerRunning_total (w w' : World) (c : Cache) :
  exists b, result (ensureWorkerRunning w w' c) = Ok b.
Proof.
  unfold ensureWorkerRunning. rewrite bind_eq, try_catch_eq.
  match goal with
  | |- context [result (bind ?m ?k c)] =>
      destruct (result (bind m k c)) as [[|]|e] eqn:Hbody
  end.
  - rewrite Hbody. by eexists.
  - rewrite Hbody. by eexists.
  - by eexists.
Qed.

Lemma ensureWorkerRunning_unhealthy (w w' : World) (c : Cache) :
  result (isWorkerHealthy w c) <> Ok true ->
  result (ensureWorkerRunning w w' c) = Ok false.
Proof.
  intros Hne. unfold ensureWorkerRunning. rewrite bind_eq, try_catch_eq, bind_eq.
  destruct (result (isWorkerHealthy w c)) as [[|]|e]; cbn; congruence.
Qed.

End Liveness.

(** C3, as the code has it.  [isWorkerHealthy] returns [response.ok] when the
    liveness request is answered.  When the request is refused it does not
    return false: the rejection propagates to the caller.  The one caller,
    [ensureWorkerRunning], catches it and returns false. *)
Theorem isWorkerHealthy_rejection_propagates
    (w w' : World) (c : Cache) (port : number) :
  result (getWorkerPort w c) = Ok port ->
  match network w ("http://127.0.0.1:" +:+ showNumber port +:+ "/api/health")
                {| method := None; headers := []; body := None;
                   agent := Some keepAliveAgent |} with
  | Ok response => result (isWorkerHealthy w c) = Ok (ok response)
  | Throw e =>
      result (isWorkerHealthy w c) = Throw e /\
      result (ensureWorkerRunning w w' c) = Ok false
  end.
Proof.
  intros Hport.
  assert (Hh : result (isWorkerHealthy w c) =
               match network w ("http://127.0.0.1:" +:+ showNumber port +:+ "/api/health")
                       {| method := None; headers := []; body := None;
                          agent := Some keepAliveAgent |} with
               | Ok response => Ok (ok response)
               | Throw e => Throw e
               end).
  { rewrite isWorkerHealthy_unfold. cbn zeta. rewrite Hport. reflexivity. }
  destruct (network w _ _) as [response|e]; [exact Hh|].
  split; [exact Hh|]. apply ensureWorkerRunning_unhealthy. rewrite Hh. discriminate.
Qed.

Lemma isWorkerHealthy_rejection_propagates_witness :
  let w := Sample.world Sample.refusing in
  result (isWorkerHealthy w initialCache) = Throw (ErrorObj "fetch failed") /\
  result (ensureWorkerRunning w w initialCache) = Ok false.
Proof.
  intros w.
  exact (isWorkerHealthy_rejection_propagates w w initialCache (Num 37777) eq_refl).
Defined.

(** C3, as the specification words it, fails: with no listener on the port
    the call does not produce false, it throws. *)
Lemma isWorkerHealthy_throws_without_listener :
  result (isWorkerHealthy (Sample.world Sample.refusing) initialCache) <> Ok false /\
  result (isWorkerHealthy (Sample.world Sample.refusing) initialCache)
  = Throw (ErrorObj "fetch failed").
Proof. vm_compute. split; [discriminate|reflexivity]. Qed.

(** C2.  The worker answers the liveness probe with 200 and the version
    request with 500: [isWorkerHealthy] yields true, the error thrown by the
    version check lands in the [catch] of [ensureWorkerRunning], and the
    call returns false after one probe, logging that the health check
    failed. *)
Theorem ensureWorkerRunning_false_on_version_failure :
  let w := Sample.world Sample.versionBroken in
  let o := ensureWorkerRunning w w initialCache in
  result (isWorkerHealthy w initialCache) = Ok true /\
  result o = Ok false /\
  fetches (events o)
  = [("http://127.0.0.1:37777/api/health",
      {| method := None; headers := []; body := None; agent := Some keepAliveAgent |});
     ("http://127.0.0.1:37777/api/version",
      {| method := None; headers := []; body := None; agent := Some keepAliveAgent |})] /\
  In (LoggerDebug "SYSTEM" "Worker health check failed"
        [("error", Some (JStr "Failed to get worker version: 500"))]) (events o) /\
  In (LoggerWarn "SYSTEM" "Worker not healthy, hook will proceed gracefully") (events o).
Proof. vm_compute. repeat split; auto 10. Qed.

Section VersionCheck.

(** What [ensureWorkerRunning] returns once the probe has said true is
    decided by whether the version check throws. *)
Lemma ensureWorkerRunning_after_healthy (w w' : World) (c : Cache) :
  result (isWorkerHealthy w c) = Ok true ->
  result (ensureWorkerRunning w w' c)
  = match result (checkWorkerVersion w' (cache (isWorkerHealthy w c))) with
    | Ok _ => Ok true
    | Throw _ => Ok false
    end.
Proof.
  intros Hh. unfold ensureWorkerRunning.
  rewrite bind_eq, try_catch_eq, bind_eq, Hh, bind_eq.
  destruct (result (checkWorkerVersion w' (cache (isWorkerHealthy w c)))); reflexivity.
Qed.

End VersionCheck.

(** ** Transport used by the handlers *)

Section Transport.

Lemma fetches_of_handlers (w : World) (c : Cache) :
  Forall (fun request => agent (snd request) = None)
         (fetches (events (handleStop w c))) /\
  Forall (fun request => agent (snd request) = None)
         (fetches (events (handleSessionEnd w c))) /\
  Forall (fun request => agent (snd request) = None)
         (fetches (events (handlePostToolUse w c))) /\
  Forall (fun request => agent (snd request) = Some keepAliveAgent)
         (fetches (events (handleUserPromptSubmit w c))).
Proof.
  repeat split; run_handler w c.
  all: cbn -[pretty String.append]; repeat constructor.
Qed.

End Transport.

(** C9.  On a run where the worker answers 200, the requests of the stop,
    session-end and tool-observation handlers carry no agent: they are
    issued with the plain [fetch], not through [fetchKeepAlive].  Of these
    four, only the prompt-submit request goes through the keep-alive
    transport. *)
Theorem only_prompt_submit_uses_keep_alive :
  let w := Sample.world (Sample.answering 200) in
  fetches (events (handlePostToolUse w initialCache))
  = [("http://127.0.0.1:37777/api/sessions/abc/observation",
      {| method := Some "POST"; headers := [("Content-Type", "application/json")];
         body := Some (JObj [("observation", JObj [("prompt", JStr "hello")])]);
         agent := None |})] /\
  ~ Forall viaKeepAlive (fetches (events (handlePostToolUse w initialCache))) /\
  ~ Forall viaKeepAlive (fetches (events (handleStop w initialCache))) /\
  ~ Forall viaKeepAlive (fetches (events (handleSessionEnd w initialCache))) /\
  Forall viaKeepAlive (fetches (events (handleUserPromptSubmit w initialCache))).
Proof.
  cbn zeta. split; [vm_compute; reflexivity|].
  repeat split.
  1-3: intros H; apply Forall_cons in H as [H _]; vm_compute in H; discriminate.
  repeat constructor.
Qed.

(** * Further properties of the code *)
(** ** Thousands separators *)

Section Separators.

Lemma notWordBoundary_nonword (prev : option ascii) (c : ascii) (next : option ascii) :
  isWordChar c = false ->
  notWordBoundary (Some c) next = notWordBoundary None next.
Proof. unfold notWordBoundary. cbn. intros ->. reflexivity. Qed.

Lemma insertSeparators_after_nonword (c : ascii) (s : string) :
  isWordChar c = false ->
  insertSeparators (Some c) s = insertSeparators None s.
Proof.
  intros Hc. destruct s as [|a rest]; [reflexivity|].
  cbn [insertSeparators]. rewrite (notWordBoundary_nonword None c) by exact Hc.
  reflexivity.
Qed.

Lemma stripCommas_insertSeparators (s : string) :
  forall prev, stripCommas (insertSeparators prev s) = stripCommas s.
Proof.
  induction s as [|a rest IH]; intros prev; [reflexivity|].
  cbn [insertSeparators].
  destruct (notWordBoundary prev (Some a) && groupsAhead (String a rest));
    cbn [stripCommas]; rewrite ?Ascii.eqb_refl; cbn [stripCommas];
    rewrite IH; reflexivity.
Qed.

Lemma stripCommas_id (s : string) : hasComma s = false -> stripCommas s = s.
Proof.
  induction s as [|a rest IH]; [reflexivity|]. cbn.
  destruct (Ascii.eqb a ","); [discriminate|]. cbn. intros H. by rewrite IH.
Qed.

Lemma append_cons (x : ascii) (s t : string) : String x s +:+ t = String x (s +:+ t).
Proof. reflexivity. Qed.

Lemma append_nil (t : string) : "" +:+ t = t.
Proof. reflexivity. Qed.

Lemma append_assoc (s t u : string) : (s +:+ t) +:+ u = s +:+ t +:+ u.
Proof. induction s as [|a s IH]; [reflexivity|]. rewrite !append_cons. by rewrite IH. Qed.

Lemma length_append (s t : string) :
  String.length (s +:+ t) = (String.length s + String.length t)%nat.
Proof. induction s as [|a s IH]; [reflexivity|]. rewrite append_cons. cbn. by rewrite IH. Qed.

Lemma groupsAhead_nondigit (c : ascii) (b : string) :
  isDigit c = false -> groupsAhead (String c b) = false.
Proof. intros Hc. destruct b as [|? [|? ?]]; cbn; rewrite ?Hc; reflexivity. Qed.

(** What lies beyond a character that is no digit does not matter to the
    lookahead. *)
Lemma groupsAhead_cut (n : nat) :
  forall (a : string) (c : ascii) (b : string),
    (String.length a <= n)%nat ->
    isDigit c = false ->
    groupsAhead (a +:+ String c b) = groupsAhead a.
Proof.
  induction n as [|n IH]; intros a c b Hlen Hc.
  - destruct a; [|cbn in Hlen; lia]. rewrite append_nil. apply groupsAhead_nondigit, Hc.
  - destruct a as [|x [|y [|z rest]]].
    + rewrite append_nil. apply groupsAhead_nondigit, Hc.
    + rewrite append_cons, append_nil. cbn [groupsAhead]. destruct b; [reflexivity|].
      rewrite Hc, andb_false_r. reflexivity.
    + rewrite !append_cons, append_nil. cbn [groupsAhead].
      rewrite Hc, !andb_false_r. reflexivity.
    + rewrite !append_cons. cbn [groupsAhead].
      rewrite (IH rest c b) by (cbn in Hlen; lia || exact Hc).
      destruct rest; rewrite ?append_cons, ?append_nil; cbn [noDigitAhead];
        rewrite ?Hc; reflexivity.
Qed.

Lemma groupsAhead_length (n : nat) :
  forall s : string,
    (String.length s <= n)%nat ->
    allDigits s = true ->
    groupsAhead s
    = (3 <=? Z.of_nat (String.length s)) && (Z.of_nat (String.length s) `mod` 3 =? 0).
Proof.
  induction n as [|n IH]; intros s Hlen Hd.
  - destruct s; [reflexivity|cbn in Hlen; lia].
  - destruct s as [|x [|y [|z rest]]]; try reflexivity.
    cbn in Hd. apply andb_true_iff in Hd as [Hx Hd].
    apply andb_true_iff in Hd as [Hy Hd]. apply andb_true_iff in Hd as [Hz Hd].
    cbn [groupsAhead]. rewrite Hx, Hy, Hz. cbn [andb].
    rewrite (IH rest) by (cbn in Hlen; lia || exact Hd).
    cbn [String.length].
    destruct rest as [|r rest'].
    + reflexivity.
    + cbn in Hd. apply andb_true_iff in Hd as [Hr _]. cbn [noDigitAhead].
      rewrite Hr. cbn [negb orb]. cbn [String.length].
      replace (Z.of_nat (S (S (S (S (String.length rest'))))))
        with (Z.of_nat (S (String.length rest')) + 1 * 3) by lia.
      rewrite Z_mod_plus_full.
      destruct (Z.of_nat (S (String.length rest')) `mod` 3 =? 0) eqn:Hm.
      * apply Z.eqb_eq in Hm.
        assert (3 <= Z.of_nat (S (String.length rest'))).
        { pose proof (Z.mod_pos_bound (Z.of_nat (S (String.length rest'))) 3 ltac:(lia)).
          destruct (Z.of_nat (S (String.length rest'))) eqn:E; try lia.
          assert (p = 1%positive \/ p = 2%positive \/ (3 <= Z.pos p)) as [->|[->|?]] by lia;
            [discriminate|discriminate|done]. }
        rewrite !andb_true_r.
        transitivity true; [apply Z.leb_le; lia|symmetry; apply Z.leb_le; lia].
      * by rewrite !andb_false_r.
Qed.

End Separators.

(** ** Decimal renderings *)

(** Linear arithmetic with division and remainder by constants. *)
Ltac div_mod_lia := zify; Z.to_euclidean_division_equations; lia.

Section Decimal.

Lemma isDigit_char (d : N) : isDigit (pretty_N_char d) = true.
Proof. unfold pretty_N_char. by repeat case_match. Qed.

Lemma isDigit_isWordChar (a : ascii) : isDigit a = true -> isWordChar a = true.
Proof. unfold isWordChar. intros ->. reflexivity. Qed.

Lemma isWordChar_isDigit (a : ascii) : isWordChar a = false -> isDigit a = false.
Proof. destruct (isDigit a) eqn:E; [|done]. by rewrite (isDigit_isWordChar a E). Qed.

Lemma pretty_N_go_app (x : N) :
  forall s, pretty_N_go x s = pretty_N_go x "" +:+ s.
Proof.
  induction (N.lt_wf_0 x) as [x _ IH]; intros s.
  destruct (decide (x = 0%N)) as [->|Hx]; [by rewrite !pretty_N_go_0|].
  rewrite (pretty_N_go_step x s), (pretty_N_go_step x "") by lia.
  rewrite (IH (x `div` 10)%N) by (apply N.div_lt; lia).
  rewrite (IH (x `div` 10)%N ltac:(apply N.div_lt; lia) (String _ "")).
  by rewrite append_assoc.
Qed.

Lemma allDigits_app (s t : string) :
  allDigits (s +:+ t) = allDigits s && allDigits t.
Proof.
  induction s as [|a s IH]; [reflexivity|].
  rewrite append_cons. cbn [allDigits]. rewrite IH. by rewrite andb_assoc.
Qed.

Lemma pretty_N_go_digits (x : N) : allDigits (pretty_N_go x "") = true.
Proof.
  induction (N.lt_wf_0 x) as [x _ IH].
  destruct (decide (x = 0%N)) as [->|Hx]; [reflexivity|].
  rewrite pretty_N_go_step by lia. rewrite pretty_N_go_app, allDigits_app.
  rewrite IH by (apply N.div_lt; lia). cbn [allDigits andb].
  by rewrite isDigit_char.
Qed.

Lemma pretty_N_go_nonempty (x : N) : (0 < x)%N -> pretty_N_go x "" <> "".
Proof.
  intros Hx. rewrite pretty_N_go_step by done. rewrite pretty_N_go_app.
  destruct (pretty_N_go (x `div` 10) ""); discriminate.
Qed.

Lemma pretty_pos (n : Z) : 0 < n -> pretty n = pretty_N_go (Z.to_N n) "".
Proof.
  destruct n as [|p|p]; try lia. intros _.
  unfold pretty at 1, pretty_Z, pretty, pretty_positive, pretty, pretty_N.
  by case_decide.
Qed.

Lemma pretty_neg (n : Z) : 0 < n -> pretty (- n) = "-" +:+ pretty n.
Proof. destruct n as [|p|p]; try lia. reflexivity. Qed.

Lemma pretty_nonneg_digits (n : Z) : 0 <= n -> allDigits (pretty n) = true /\ pretty n <> "".
Proof.
  intros Hn. destruct (decide (n = 0)) as [->|Hne]; [done|].
  rewrite pretty_pos by lia. split; [apply pretty_N_go_digits|].
  apply pretty_N_go_nonempty. lia.
Qed.

Lemma pretty_thousands (n : Z) :
  1000 <= n -> pretty n = pretty (n `div` 1000) +:+ threeDigits (n `mod` 1000).
Proof.
  intros Hn.
  assert (Hq : 0 < n `div` 1000) by div_mod_lia.
  rewrite (pretty_pos n), (pretty_pos (n `div` 1000)) by lia.
  set (x := Z.to_N n).
  assert (H0 : (0 < x)%N) by (subst x; lia).
  assert (H1 : (0 < x `div` 10)%N) by (subst x; div_mod_lia).
  assert (H2 : (0 < (x `div` 10) `div` 10)%N) by (subst x; div_mod_lia).
  rewrite (pretty_N_go_step x) by done.
  rewrite (pretty_N_go_step (x `div` 10)) by done.
  rewrite (pretty_N_go_step ((x `div` 10) `div` 10)) by done.
  rewrite pretty_N_go_app. unfold threeDigits.
  replace (((x `div` 10) `div` 10) `div` 10)%N with (Z.to_N (n `div` 1000))
    by (subst x; div_mod_lia).
  replace (((x `div` 10) `div` 10) `mod` 10)%N with (Z.to_N ((n `mod` 1000) `div` 100))
    by (subst x; div_mod_lia).
  replace ((x `div` 10) `mod` 10)%N with (Z.to_N (((n `mod` 1000) `div` 10) `mod` 10))
    by (subst x; div_mod_lia).
  replace (x `mod` 10)%N with (Z.to_N ((n `mod` 1000) `mod` 10))
    by (subst x; div_mod_lia).
  reflexivity.
Qed.

End Decimal.

Section Grouping.

Lemma allDigits_no_comma (s : string) : allDigits s = true -> hasComma s = false.
Proof.
  induction s as [|a s IH]; [reflexivity|]. cbn [allDigits hasComma].
  intros [Ha Hs]%andb_true_iff. rewrite (IH Hs), orb_false_r.
  destruct (Ascii.eqb_spec a ",") as [->|]; [discriminate Ha|reflexivity].
Qed.

Lemma pretty_no_comma (num : Z) : hasComma (pretty num) = false.
Proof.
  destruct (Z.lt_trichotomy num 0) as [Hneg|[->|Hpos]].
  - replace num with (- (- num)) by lia. rewrite pretty_neg by lia.
    rewrite append_cons, append_nil. cbn [hasComma].
    apply allDigits_no_comma, pretty_nonneg_digits. lia.
  - reflexivity.
  - apply allDigits_no_comma, pretty_nonneg_digits. lia.
Qed.

Lemma insertSeparators_split (a : string) :
  forall (prev : option ascii) (c : ascii) (b : string),
    isWordChar c = false ->
    insertSeparators prev (a +:+ String c b)
    = insertSeparators prev a +:+ String c (insertSeparators None b).
Proof.
  induction a as [|x a IH]; intros prev c b Hc.
  - rewrite append_nil. cbn [insertSeparators].
    rewrite (groupsAhead_nondigit c b (isWordChar_isDigit c Hc)), andb_false_r.
    rewrite (insertSeparators_after_nonword c b Hc). reflexivity.
  - rewrite append_cons. cbn [insertSeparators]. rewrite <- append_cons.
    rewrite (groupsAhead_cut (String.length (String x a)) (String x a) c b)
      by (lia || exact (isWordChar_isDigit c Hc)).
    rewrite (IH (Some x) c b Hc).
    destruct (notWordBoundary prev (Some x) && groupsAhead (String x a));
      reflexivity.
Qed.

(** A digit-only text of at most three characters gets no separator,
    whatever precedes it. *)
Lemma insertSeparators_short (s : string) (x : ascii) :
  (String.length s <= 2)%nat ->
  insertSeparators (Some x) s = s.
Proof.
  destruct s as [|a [|b [|c s]]]; cbn [String.length]; intros Hlen;
    try lia; cbn [insertSeparators groupsAhead]; rewrite ?andb_false_r; reflexivity.
Qed.

Lemma insertSeparators_three (x : ascii) (b : string) :
  isDigit x = true -> allDigits b = true -> String.length b = 3%nat ->
  insertSeparators (Some x) b = String "," b.
Proof.
  intros Hx Hb Hlen. destruct b as [|b0 [|b1 [|b2 [|? ?]]]]; try discriminate Hlen.
  cbn in Hb. apply andb_true_iff in Hb as [H0 Hb].
  apply andb_true_iff in Hb as [H1 Hb]. apply andb_true_iff in Hb as [H2 _].
  cbn [insertSeparators groupsAhead noDigitAhead].
  unfold notWordBoundary. cbn [from_option].
  rewrite (isDigit_isWordChar x Hx), (isDigit_isWordChar b0 H0).
  rewrite H0, H1, H2, !andb_false_r. reflexivity.
Qed.

Lemma insertSeparators_group (a : string) :
  forall (prev : option ascii) (b : string),
    a <> "" -> allDigits a = true -> allDigits b = true -> String.length b = 3%nat ->
    insertSeparators prev (a +:+ b) = insertSeparators prev a +:+ String "," b.
Proof.
  induction a as [|x a IH]; intros prev b Hne Ha Hb Hlen; [done|].
  cbn [allDigits] in Ha. apply andb_true_iff in Ha as [Hx Ha].
  assert (Hahead : groupsAhead (String x a +:+ b) = groupsAhead (String x a)).
  { rewrite (groupsAhead_length (String.length (String x a +:+ b)) _ (Nat.le_refl _))
      by (rewrite allDigits_app; cbn [allDigits]; by rewrite Hx, Ha, Hb).
    rewrite (groupsAhead_length (String.length (String x a)) _ (Nat.le_refl _))
      by (cbn [allDigits]; by rewrite Hx, Ha).
    rewrite length_append, Hlen. cbn [String.length].
    replace (Z.of_nat (S (String.length a) + 3)) with (Z.of_nat (S (String.length a)) + 1 * 3)
      by lia.
    rewrite Z_mod_plus_full.
    destruct (Z.of_nat (S (String.length a)) `mod` 3 =? 0) eqn:Hm;
      [|by rewrite !andb_false_r].
    rewrite !andb_true_r. apply Z.eqb_eq in Hm.
    transitivity true; [apply Z.leb_le; lia|symmetry; apply Z.leb_le].
    assert (Hz : 1 <= Z.of_nat (S (String.length a))) by lia.
    revert Hm Hz. generalize (Z.of_nat (S (String.length a))).
    intros z Hm Hz. assert (z <> 1 /\ z <> 2) by (split; intros ->; discriminate Hm).
    lia. }
  rewrite append_cons. cbn [insertSeparators]. rewrite <- append_cons, Hahead.
  assert (Htail : insertSeparators (Some x) (a +:+ b)
                  = insertSeparators (Some x) a +:+ String "," b).
  { destruct a as [|y a'].
    - rewrite append_nil. cbn [insertSeparators]. rewrite append_nil.
      by apply insertSeparators_three.
    - by apply IH. }
  rewrite Htail.
  destruct (notWordBoundary prev (Some x) && groupsAhead (String x a)); reflexivity.
Qed.

End Grouping.

(** Up to [MAX_SAFE_INTEGER] in magnitude, [toString] prints every digit. *)
Lemma numberToString_safe (z : Z) :
  Z.abs z <= MAX_SAFE_INTEGER -> numberToString z = pretty z.
Proof.
  unfold numberToString, MAX_SAFE_INTEGER. intros Hz.
  change (2 ^ 53) with 9007199254740992.
  destruct (Z.ltb_spec (Z.abs z) 9007199254740992); [reflexivity|lia].
Qed.

(** Past that range the digits are no longer those of the integer: the
    shortest digits that read back as the same double are printed, and from
    1e21 on the exponent form, in which the fraction digits get grouped. *)
Example formatNumber_beyond_safe_range :
  formatNumber (2 ^ 63) = "9,223,372,036,854,776,000" /\
  formatNumber (2 ^ 64) = "18,446,744,073,709,552,000" /\
  formatNumber (10 ^ 21) = "1e+21" /\
  formatNumber (2 ^ 70) = "1.1,805,916,207,174,113e+21" /\
  formatNumber (- 2 ^ 53) = "-9,007,199,254,740,992" /\
  formatNumber MAX_SAFE_INTEGER = "9,007,199,254,740,991".
Proof. vm_compute. auto 10. Qed.

(** X1.  [formatNumber] changes its text only by inserting commas: deleting the
    commas from the result gives back the text it started from, and for an
    integer argument up to [MAX_SAFE_INTEGER] in magnitude that text is the
    decimal rendering of the number. *)
Theorem formatNumber_only_inserts_commas :
  (forall text, stripCommas (formatString text) = stripCommas text) /\
  (forall num,
      Z.abs num <= MAX_SAFE_INTEGER -> stripCommas (formatNumber num) = pretty num).
Proof.
  split.
  - intros text. apply stripCommas_insertSeparators.
  - intros num Hsafe. unfold formatNumber, formatString.
    rewrite (numberToString_safe num Hsafe).
    rewrite stripCommas_insertSeparators. apply stripCommas_id, pretty_no_comma.
Qed.

Lemma formatNumber_only_inserts_commas_witness :
  stripCommas (formatString "12,3456") = stripCommas "12,3456" /\
  stripCommas (formatNumber 1234567) = pretty 1234567.
Proof.
  split.
  - exact (proj1 formatNumber_only_inserts_commas "12,3456").
  - exact (proj2 formatNumber_only_inserts_commas 1234567 ltac:(vm_compute; discriminate)).
Defined.

(** X2.  A character outside [A-Za-z0-9_] cuts the text in two pieces that are
    formatted independently of each other.  With the decimal point as that
    character: the digits after the point are grouped in threes from their
    right end exactly like the digits before it. *)
Theorem formatString_splits_at_nonword (a : string) (c : ascii) (b : string) :
  isWordChar c = false ->
  formatString (a +:+ String c b) = formatString a +:+ String c (formatString b).
Proof. intros Hc. unfold formatString. by apply insertSeparators_split. Qed.

Lemma formatString_splits_at_nonword_witness :
  formatString "1234.5678" = "1,234" +:+ String "." "5,678".
Proof.
  exact (formatString_splits_at_nonword "1234" "." "5678" eq_refl).
Defined.

(** X3.  On a run of digits the separators go in from the right: up to three
    digits are left alone, and a run that ends in three digits [b] after a
    non-empty run [a] is [a] formatted, a comma, and [b]. *)
Theorem formatString_groups_digits :
  (forall s, allDigits s = true -> (String.length s <= 3)%nat -> formatString s = s) /\
  (forall a b,
      a <> "" -> allDigits a = true -> allDigits b = true -> String.length b = 3%nat ->
      formatString (a +:+ b) = formatString a +:+ String "," b).
Proof.
  split.
  - intros s Hs Hlen. unfold formatString.
    destruct s as [|x s]; [reflexivity|].
    cbn [allDigits] in Hs. apply andb_true_iff in Hs as [Hx _].
    cbn [insertSeparators]. unfold notWordBoundary. cbn [from_option].
    rewrite (isDigit_isWordChar x Hx). cbn [Bool.eqb andb].
    rewrite insertSeparators_short by (cbn in Hlen; lia). reflexivity.
  - intros a b Hne Ha Hb Hlen. unfold formatString. by apply insertSeparators_group.
Qed.

Lemma formatString_groups_digits_witness :
  formatString "999" = "999" /\
  formatString ("1234" +:+ "567") = formatString "1234" +:+ String "," "567".
Proof.
  destruct formatString_groups_digits as [Hshort Hgroup]. split.
  - apply Hshort; [reflexivity|cbn; lia].
  - apply Hgroup; [discriminate|reflexivity|reflexivity|reflexivity].
Defined.

(** X4.  [formatNumber] on integers up to [MAX_SAFE_INTEGER]: below 1000 the
    number is printed as it is; from 1000 on, the result is the quotient by
    1000 formatted, a comma, and the three digits of the remainder; a
    negative number is the minus sign followed by the formatted
    magnitude. *)
Theorem formatNumber_integers (n : Z) :
  n <= MAX_SAFE_INTEGER ->
  (0 <= n < 1000 -> formatNumber n = pretty n) /\
  (1000 <= n ->
   formatNumber n
   = formatNumber (n `div` 1000) +:+ String "," (threeDigits (n `mod` 1000))) /\
  (0 < n -> formatNumber (- n) = String "-" (formatNumber n)).
Proof.
  intros Hsafe. split; [|split].
  - intros Hn.
    assert (Hall : forallb (fun k => String.eqb (formatNumber k) (pretty k)) (seqZ 0 1000)
                   = true) by (vm_compute; reflexivity).
    rewrite forallb_forall in Hall.
    apply String.eqb_eq, Hall, list_elem_of_In, elem_of_seqZ. lia.
  - intros Hn. unfold formatNumber.
    rewrite (numberToString_safe n), (numberToString_safe (n `div` 1000))
      by (unfold MAX_SAFE_INTEGER in *; div_mod_lia).
    rewrite (pretty_thousands n Hn).
    destruct (pretty_nonneg_digits (n `div` 1000)) as [Hd Hne].
    { apply Z.div_pos; lia. }
    unfold formatString.
    apply insertSeparators_group; [exact Hne|exact Hd| |reflexivity].
    unfold threeDigits. cbn [allDigits]. by rewrite !isDigit_char.
  - intros Hn. unfold formatNumber.
    rewrite (numberToString_safe n), (numberToString_safe (- n))
      by (unfold MAX_SAFE_INTEGER in *; lia).
    rewrite (pretty_neg n Hn).
    change ("-" +:+ pretty n) with ("" +:+ String "-" (pretty n)).
    unfold formatString. rewrite insertSeparators_split by reflexivity. reflexivity.
Qed.

Lemma formatNumber_integers_witness :
  formatNumber 150 = "150" /\
  formatNumber 1234567 = formatNumber 1234 +:+ String "," "567" /\
  formatNumber (- 1500) = String "-" (formatNumber 1500).
Proof.
  split; [|split].
  - exact (proj1 (formatNumber_integers 150 ltac:(vm_compute; discriminate)) ltac:(lia)).
  - exact (proj1 (proj2 (formatNumber_integers 1234567 ltac:(vm_compute; discriminate)))
             ltac:(lia)).
  - exact (proj2 (proj2 (formatNumber_integers 1500 ltac:(vm_compute; discriminate)))
             ltac:(lia)).
Defined.

(** ** Reading a decimal number back *)

Section ParseDecimal.

Lemma digitValue_char (d : N) : (d < 10)%N -> digitValue (pretty_N_char d) = Some (Z.of_N d).
Proof.
  intros Hd.
  assert (d = 0 \/ d = 1 \/ d = 2 \/ d = 3 \/ d = 4 \/ d = 5 \/ d = 6 \/ d = 7 \/ d = 8
          \/ d = 9)%N as Hcases by lia.
  repeat (destruct Hcases as [->|Hcases]; [reflexivity|]). by subst.
Qed.

Lemma digitValue_nondigit (a : ascii) : isDigit a = false -> digitValue a = None.
Proof. unfold digitValue, isDigit. intros ->. reflexivity. Qed.

Lemma isDigit_not_space (a : ascii) : isDigit a = true -> isWhiteSpace a = false.
Proof.
  unfold isDigit, isWhiteSpace. generalize (Z.of_N (N_of_ascii a)). intros c.
  intros [H1 H2]%andb_true_iff. apply Z.leb_le in H1. apply Z.leb_le in H2.
  apply orb_false_iff. split; [apply Z.eqb_neq; lia|].
  apply andb_false_iff. right. apply Z.leb_gt. lia.
Qed.

Lemma digitsPrefix_pretty_go (x : N) :
  forall s, (0 < x)%N ->
            digitsPrefix (pretty_N_go x s) None = digitsPrefix s (Some (Z.of_N x)).
Proof.
  induction (N.lt_wf_0 x) as [x _ IH]; intros s Hx.
  rewrite pretty_N_go_step by done.
  assert (E : 10 * Z.of_N (x `div` 10) + Z.of_N (x `mod` 10) = Z.of_N x) by div_mod_lia.
  destruct (decide (x `div` 10 = 0)%N) as [Hq|Hq].
  - rewrite Hq in *. rewrite pretty_N_go_0. cbn [digitsPrefix].
    rewrite digitValue_char by (apply N.mod_lt; lia). cbn [default from_option].
    rewrite <- E. reflexivity.
  - rewrite IH by div_mod_lia. cbn [digitsPrefix].
    rewrite digitValue_char by (apply N.mod_lt; lia). cbn [default from_option id].
    rewrite E. reflexivity.
Qed.

Lemma digitsPrefix_stop (s : string) (acc : option Z) :
  noDigitAhead s = true -> digitsPrefix s acc = acc.
Proof.
  destruct s as [|a s]; [reflexivity|]. cbn [noDigitAhead digitsPrefix].
  intros Ha%negb_true_iff. by rewrite (digitValue_nondigit a Ha).
Qed.

(** A first byte below 128 that is not white space itself starts no
    multi-byte white space either: nothing is trimmed. *)
Lemma trimStart_keeps (c : ascii) (r : string) :
  Z.of_N (N_of_ascii c) < 128 -> isWhiteSpace c = false ->
  trimStart (String c r) = String c r.
Proof.
  intros Hc Hw. cbn [trimStart]. rewrite Hw.
  destruct r as [|b r2]; [reflexivity|].
  assert (H2 : isWhiteSpace2 c b = false).
  { unfold isWhiteSpace2. destruct (Z.eqb_spec (Z.of_N (N_of_ascii c)) 194); [lia|reflexivity]. }
  rewrite H2. destruct r2 as [|d r3]; [reflexivity|].
  assert (H3 : isWhiteSpace3 c b d = false).
  { unfold isWhiteSpace3. cbn zeta.
    destruct (Z.eqb_spec (Z.of_N (N_of_ascii c)) 225); [lia|].
    destruct (Z.eqb_spec (Z.of_N (N_of_ascii c)) 226); [lia|].
    destruct (Z.eqb_spec (Z.of_N (N_of_ascii c)) 227); [lia|].
    destruct (Z.eqb_spec (Z.of_N (N_of_ascii c)) 239); [lia|].
    reflexivity. }
  rewrite H3. reflexivity.
Qed.

Lemma isDigit_below_128 (a : ascii) : isDigit a = true -> Z.of_N (N_of_ascii a) < 128.
Proof.
  unfold isDigit. intros [_ H2]%andb_true_iff. apply Z.leb_le in H2. lia.
Qed.

(** Integers up to [MAX_SAFE_INTEGER] in magnitude are doubles. *)
Lemma toDouble_safe (z : Z) : Z.abs z <= MAX_SAFE_INTEGER -> toDouble z = z.
Proof.
  unfold toDouble, MAX_SAFE_INTEGER. intros Hz.
  change (2 ^ 53) with 9007199254740992.
  destruct (Z.ltb_spec (Z.abs z) 9007199254740992); [reflexivity|lia].
Qed.

(** The decimal rendering of a safe integer [p], followed by text that does
    not go on with a digit, is read back as [p]. *)
Lemma parseInt_pretty (p : Z) (junk : string) :
  Z.abs p <= MAX_SAFE_INTEGER ->
  noDigitAhead junk = true -> parseInt (pretty p +:+ junk) = Num p.
Proof.
  intros Hsafe Hjunk.
  assert (Hpos : forall q, 0 < q ->
            exists c r, pretty q +:+ junk = String c r /\ isDigit c = true /\
                        digitsPrefix (String c r) None = Some q).
  { intros q Hq. rewrite pretty_pos by lia.
    assert (Hd := pretty_N_go_digits (Z.to_N q)).
    assert (Hne := pretty_N_go_nonempty (Z.to_N q) ltac:(lia)).
    assert (Hval : digitsPrefix (pretty_N_go (Z.to_N q) "" +:+ junk) None = Some q).
    { rewrite <- pretty_N_go_app, digitsPrefix_pretty_go by lia.
      rewrite digitsPrefix_stop by done. f_equal. lia. }
    destruct (pretty_N_go (Z.to_N q) "") as [|c r]; [done|].
    cbn [allDigits] in Hd. apply andb_true_iff in Hd as [Hc _].
    exists c, (r +:+ junk). rewrite append_cons in *. auto. }
  destruct (Z.lt_trichotomy p 0) as [Hneg|[->|Hp]].
  - replace p with (- (- p)) at 1 by lia. rewrite pretty_neg by lia.
    destruct (Hpos (- p) ltac:(lia)) as (c & r & Heq & Hc & Hval).
    rewrite append_assoc, Heq, append_cons, append_nil.
    unfold parseInt. rewrite trimStart_keeps by (vm_compute; reflexivity).
    change (Ascii.eqb "-" "-") with true. cbn iota. rewrite Hval.
    rewrite toDouble_safe by lia. f_equal. lia.
  - change (pretty 0) with "0". rewrite append_cons, append_nil.
    unfold parseInt. rewrite trimStart_keeps by (vm_compute; reflexivity).
    change (Ascii.eqb "0" "-") with false. change (Ascii.eqb "0" "+") with false.
    cbn iota. cbn [digitsPrefix]. change (digitValue "0") with (Some 0).
    cbn [default]. rewrite digitsPrefix_stop by done. reflexivity.
  - destruct (Hpos p Hp) as (c & r & Heq & Hc & Hval). rewrite Heq.
    unfold parseInt.
    rewrite trimStart_keeps by auto using isDigit_below_128, isDigit_not_space.
    assert (Ascii.eqb c "-" = false /\ Ascii.eqb c "+" = false) as [-> ->].
    { split; apply Ascii.eqb_neq; intros ->; discriminate Hc. }
    rewrite Hval. rewrite toDouble_safe by lia. f_equal. lia.
Qed.

(** Past the safe range the value read is the nearest double, and white
    space of more than one byte is skipped like a blank. *)
Example parseInt_rounds_to_double :
  parseInt "9007199254740993" = Num 9007199254740992 /\
  parseInt "9007199254740995" = Num 9007199254740996 /\
  parseInt "-18014398509481987" = Num (-18014398509481988) /\
  parseInt "9007199254740991" = Num 9007199254740991.
Proof. vm_compute. auto. Qed.

Example parseInt_skips_unicode_space :
  parseInt (String (ascii_of_N 194) (String (ascii_of_N 160) " 37777")) = Num 37777 /\
  parseInt (String (ascii_of_N 239) (String (ascii_of_N 187) (String (ascii_of_N 191) "8080")))
  = Num 8080 /\
  parseInt (String (ascii_of_N 226) (String (ascii_of_N 128) (String (ascii_of_N 139) "8080")))
  = NaN.
Proof. vm_compute. auto. Qed.

Example parseIntAuto_reads_hex :
  parseIntAuto "0x1F" = Num 31 /\ parseIntAuto " 37777" = Num 37777 /\
  parseIntAuto "0x" = NaN /\ parseIntAuto "port" = NaN /\ parseInt "0x1F" = Num 0.
Proof. vm_compute. auto. Qed.

End ParseDecimal.

(** ** More on the port and host caches *)

(** X5.  When [getWorkerPort] throws, it is because it had to reload (no usable
    override, no fresh entry) and the settings loader threw that very
    error; the cache is left exactly as it was, after one read attempt. *)
Theorem getWorkerPort_failure_keeps_cache (w : World) (c : Cache) (e : thrown) :
  result (getWorkerPort w c) = Throw e ->
  loadFromFile w = Throw e /\
  cache (getWorkerPort w c) = c /\
  events (getWorkerPort w c) = [LoadFromFile] /\
  portOverride w = None /\
  (cachedPort c = None \/ CACHE_TTL <= now w - cacheTime c).
Proof.
  destruct (portOverride w) as [p|] eqn:Hov.
  - rewrite (getWorkerPort_override w c p Hov). discriminate.
  - rewrite (getWorkerPort_chain w c Hov). unfold reloaded.
    destruct (cachedPort c) as [p|] eqn:Hc.
    + destruct (now w - cacheTime c <? CACHE_TTL) eqn:Hage; [discriminate|].
      apply Z.ltb_ge in Hage.
      destruct (loadFromFile w); cbn; intros [= <-]; auto 6.
    + destruct (loadFromFile w); cbn; intros [= <-]; auto 6.
Qed.

Lemma getWorkerPort_failure_keeps_cache_witness :
  let c := {| cachedPort := Some (Num 37777); cachedHost := Some "127.0.0.1";
              cacheTime := 1699999900000 |} in
  cache (getWorkerPort settingsUnreadable c) = c /\
  events (getWorkerPort settingsUnreadable c) = [LoadFromFile].
Proof.
  intros c.
  destruct (getWorkerPort_failure_keeps_cache settingsUnreadable c
              (ErrorObj "ENOENT: no such file or directory") eq_refl)
    as (_ & Hc & Hev & _).
  split; [exact Hc|exact Hev].
Defined.

(** X6.  The two caches do not touch each other: resolving the port never
    changes the cached host, and resolving the host changes neither the
    cached port nor the time stamp that the port's TTL is measured from. *)
Theorem port_and_host_caches_are_separate (w : World) (c : Cache) :
  cachedHost (cache (getWorkerPort w c)) = cachedHost c /\
  cachedPort (cache (getWorkerHost w c)) = cachedPort c /\
  cacheTime (cache (getWorkerHost w c)) = cacheTime c.
Proof.
  split; [|split].
  - destruct (portOverride w) as [p|] eqn:Hov.
    + by rewrite (getWorkerPort_override w c p Hov).
    + rewrite (getWorkerPort_chain w c Hov). unfold reloaded.
      destruct (cachedPort c); [destruct (now w - cacheTime c <? CACHE_TTL)|];
        try destruct (loadFromFile w); reflexivity.
  - destruct (cachedHost c) as [h|] eqn:Hc.
    + by rewrite (getWorkerHost_hit w c h Hc).
    + rewrite (getWorkerHost_miss w c Hc). destruct (loadFromFile w); reflexivity.
  - destruct (cachedHost c) as [h|] eqn:Hc.
    + by rewrite (getWorkerHost_hit w c h Hc).
    + rewrite (getWorkerHost_miss w c Hc). destruct (loadFromFile w); reflexivity.
Qed.

(** X7.  [clearPortCache] empties both entries but keeps the time stamp; the
    next port call (without override) and the next host call each go back
    to the settings file, however recent the stamp is.  Clearing twice is
    the same as clearing once. *)
Theorem clearPortCache_forces_both_reloads (w : World) (c : Cache) :
  portOverride w = None ->
  let c' := cache (clearPortCache c) in
  result (clearPortCache c) = Ok tt /\
  cacheTime c' = cacheTime c /\
  events (getWorkerPort w c') = [LoadFromFile] /\
  events (getWorkerHost w c') = [LoadFromFile] /\
  cache (clearPortCache c') = c'.
Proof.
  intros Hov c'. subst c'. repeat split.
  - rewrite (getWorkerPort_chain w _ Hov). cbn. unfold reloaded.
    destruct (loadFromFile w); reflexivity.
  - rewrite getWorkerHost_miss by reflexivity. destruct (loadFromFile w); reflexivity.
Qed.

Lemma clearPortCache_forces_both_reloads_witness :
  let w := Sample.world Sample.refusing in
  let fresh := cache (getWorkerPort w initialCache) in
  events (getWorkerPort w fresh) = [] /\
  events (getWorkerPort w (cache (clearPortCache fresh))) = [LoadFromFile].
Proof.
  intros w fresh. split; [reflexivity|].
  destruct (clearPortCache_forces_both_reloads w fresh eq_refl) as (_ & _ & Hport & _).
  exact Hport.
Defined.

(** X8.  Starting with nothing cached and no override, resolving the port and
    then the host reads the settings file twice: the port reload loads the
    whole settings object but stores only the port. *)
Theorem port_then_host_reads_settings_twice (w : World) (c : Cache) (settings : Settings) :
  portOverride w = None ->
  cachedPort c = None ->
  cachedHost c = None ->
  loadFromFile w = Ok settings ->
  let o1 := getWorkerPort w c in
  let o2 := getWorkerHost w (cache o1) in
  diskReads (events o1 ++ events o2) = 2%nat /\
  cache o2 = {| cachedPort := Some (parseInt (CLAUDE_MEM_WORKER_PORT settings));
                cachedHost := Some (CLAUDE_MEM_WORKER_HOST settings);
                cacheTime := now w |}.
Proof.
  intros Hov Hport Hhost Hfile o1 o2. subst o1 o2.
  rewrite (getWorkerPort_chain w c Hov), Hport. unfold reloaded. rewrite Hfile.
  cbn [cache events]. rewrite getWorkerHost_miss by exact Hhost. rewrite Hfile.
  split; reflexivity.
Qed.

Lemma port_then_host_reads_settings_twice_witness :
  let w := Sample.world Sample.refusing in
  diskReads (events (getWorkerPort w initialCache)
             ++ events (getWorkerHost w (cache (getWorkerPort w initialCache)))) = 2%nat.
Proof.
  intros w.
  exact (proj1 (port_then_host_reads_settings_twice w initialCache Sample.settings
                  eq_refl eq_refl eq_refl eq_refl)).
Defined.

(** X9.  The port is read leniently and never range-checked: a value that is
    the decimal rendering of any integer [p] a double holds exactly (up to
    [MAX_SAFE_INTEGER] in magnitude), followed by any text that does not
    continue with a digit, yields [p], from the environment as well as from
    the settings file. *)
Theorem getWorkerPort_accepts_any_safe_integer
    (w : World) (c : Cache) (p : Z) (junk : string) :
  Z.abs p <= MAX_SAFE_INTEGER ->
  noDigitAhead junk = true ->
  (env w !! "CLAUDE_MEM_WORKER_PORT" = Some (pretty p +:+ junk) ->
   getWorkerPort w c = {| result := Ok (Num p); cache := c; events := [] |})
  /\
  (forall settings,
      portOverride w = None ->
      cachedPort c = None \/ CACHE_TTL <= now w - cacheTime c ->
      loadFromFile w = Ok settings ->
      CLAUDE_MEM_WORKER_PORT settings = pretty p +:+ junk ->
      result (getWorkerPort w c) = Ok (Num p) /\
      cachedPort (cache (getWorkerPort w c)) = Some (Num p)).
Proof.
  intros Hsafe Hjunk. split.
  - intros Henv. apply getWorkerPort_override. unfold portOverride.
    rewrite Henv, (parseInt_pretty p junk Hsafe Hjunk). reflexivity.
  - intros settings Hov Hmiss Hfile Hport.
    rewrite (getWorkerPort_chain w c Hov).
    assert (Hre : match cachedPort c with
                  | Some p0 => if now w - cacheTime c <? CACHE_TTL
                               then {| result := Ok p0; cache := c; events := [] |}
                               else reloaded w c
                  | None => reloaded w c
                  end = reloaded w c).
    { destruct Hmiss as [->|Hold]; [reflexivity|].
      apply Z.ltb_ge in Hold. rewrite Hold. by destruct (cachedPort c). }
    rewrite Hre. unfold reloaded.
    rewrite Hfile, Hport, (parseInt_pretty p junk Hsafe Hjunk).
    split; reflexivity.
Qed.

Lemma getWorkerPort_accepts_any_safe_integer_witness :
  getWorkerPort (withEnv {[ "CLAUDE_MEM_WORKER_PORT" := "70000 # dev" ]}
                   (Sample.world Sample.refusing)) initialCache
  = {| result := Ok (Num 70000); cache := initialCache; events := [] |}
  /\
  result (getWorkerPort (settingsPort "-1") initialCache) = Ok (Num (-1)).
Proof.
  split.
  - exact (proj1 (getWorkerPort_accepts_any_safe_integer
                    (withEnv {[ "CLAUDE_MEM_WORKER_PORT" := "70000 # dev" ]}
                       (Sample.world Sample.refusing))
                    initialCache 70000 " # dev" ltac:(vm_compute; discriminate) eq_refl)
             eq_refl).
  - exact (proj1 (proj2 (getWorkerPort_accepts_any_safe_integer
                           (settingsPort "-1") initialCache (-1) ""
                           ltac:(vm_compute; discriminate) eq_refl)
                     {| CLAUDE_MEM_WORKER_PORT := "-1";
                        CLAUDE_MEM_WORKER_HOST := "127.0.0.1" |}
                     eq_refl (or_introl eq_refl) eq_refl eq_refl)).
Defined.

(** ** More on the port search *)

Section SearchOutcome.

Variable w : World.
Variables (basePort : Z) (host : string).

Local Abbreviation free p := (isPortAvailableAtTcpLevel w p host).




End SearchOutcome.




(** ** More on the liveness and version checks *)

Section VersionSteps.

Lemma getPluginVersion_eq (w : World) (c : Cache) :
  getPluginVersion w c
  = {| result := match readPackageJson w with
                 | Ok packageJson => getProp packageJson "version"
                 | Throw e => Throw e
                 end;
       cache := c;
       events := [ReadPackageJson] |}.
Proof.
  unfold getPluginVersion. rewrite bind_eq. unfold call, lift. cbn [result cache events].
  destruct (readPackageJson w); reflexivity.
Qed.

Lemma getWorkerVersion_eq (w : World) (c : Cache) :
  getWorkerVersion w c =
    let o := getWorkerPort w c in
    match result o with
    | Ok port =>
        {| result :=
             match network w (versionUrl port) keepAliveGet with
             | Ok response =>
                 if ok response then
                   match json_body response with
                   | Ok data => getProp data "version"
                   | Throw e => Throw e
                   end
                 else Throw (ErrorObj ("Failed to get worker version: "
                                         +:+ pretty (status response)))
             | Throw e => Throw e
             end;
           cache := cache o;
           events := events o ++ [Fetch (versionUrl port) keepAliveGet] |}
    | Throw e => {| result := Throw e; cache := cache o; events := events o |}
    end.
Proof.
  unfold getWorkerVersion. rewrite bind_eq. cbn zeta.
  destruct (result (getWorkerPort w c)) as [port|e]; [|reflexivity].
  rewrite bind_eq. unfold fetchKeepAlive, fetch, call, emptyInit.
  cbn [result cache events method headers body].
  rewrite loopback_is_not_https. fold keepAliveGet. fold (versionUrl port).
  destruct (network w (versionUrl port) keepAliveGet) as [response|e];
    cbn [result cache events]; [|reflexivity].
  destruct (ok response); cbn [negb].
  - rewrite bind_eq. unfold lift. cbn [result cache events].
    destruct (json_body response); cbn [app]; rewrite ?app_nil_r; reflexivity.
  - unfold throw. cbn [result cache events]. rewrite app_nil_r. reflexivity.
Qed.

Lemma checkWorkerVersion_eq (w : World) (c : Cache) :
  checkWorkerVersion w c =
    match result (getPluginVersion w c) with
    | Ok pluginVersion =>
        let o := getWorkerVersion w c in
        match result o with
        | Ok workerVersion =>
            {| result := Ok tt;
               cache := cache o;
               events :=
                 [ReadPackageJson] ++ events o ++
                 (if strictEq pluginVersion workerVersion then []
                  else [LoggerDebug "SYSTEM" "Version check"
                          [("pluginVersion", pluginVersion);
                           ("workerVersion", workerVersion);
                           ("note", Some (JStr "Mismatch will be auto-restarted by worker-service start command"))]]) |}
        | Throw e =>
            {| result := Throw e; cache := cache o;
               events := [ReadPackageJson] ++ events o |}
        end
    | Throw e => {| result := Throw e; cache := c; events := [ReadPackageJson] |}
    end.
Proof.
  unfold checkWorkerVersion. rewrite bind_eq, getPluginVersion_eq.
  cbn [result cache events].
  destruct (match readPackageJson w with
            | Ok packageJson => getProp packageJson "version"
            | Throw e => Throw e
            end) as [pluginVersion|e]; [|reflexivity].
  rewrite bind_eq. cbn zeta.
  destruct (result (getWorkerVersion w c)) as [workerVersion|e]; [|reflexivity].
  destruct (strictEq pluginVersion workerVersion); reflexivity.
Qed.

End VersionSteps.

Section LivenessSteps.

Lemma ensureWorkerRunning_eq (w w' : World) (c : Cache) :
  ensureWorkerRunning w w' c =
    let oh := isWorkerHealthy w c in
    let failed (e : thrown) :=
      [LoggerDebug "SYSTEM" "Worker health check failed"
         [("error", Some (JStr (errorMessage e)))];
       LoggerWarn "SYSTEM" notHealthyWarning] in
    match result oh with
    | Ok true =>
        let ov := checkWorkerVersion w' (cache oh) in
        match result ov with
        | Ok _ => {| result := Ok true; cache := cache ov;
                     events := events oh ++ events ov |}
        | Throw e => {| result := Ok false; cache := cache ov;
                        events := events oh ++ events ov ++ failed e |}
        end
    | Ok false =>
        {| result := Ok false; cache := cache oh;
           events := events oh ++ [LoggerWarn "SYSTEM" notHealthyWarning] |}
    | Throw e =>
        {| result := Ok false; cache := cache oh; events := events oh ++ failed e |}
    end.
Proof.
  unfold ensureWorkerRunning. rewrite bind_eq, try_catch_eq, bind_eq. cbn zeta.
  destruct (result (isWorkerHealthy w c)) as [[|]|e]; cbn [result cache events].
  - rewrite bind_eq.
    destruct (result (checkWorkerVersion w' (cache (isWorkerHealthy w c)))) as [u|e];
      cbn [result cache events].
    + unfold ret. cbn [result cache events]. by rewrite !app_nil_r.
    + rewrite bind_eq. unfold emit, ret. cbn [result cache events].
      rewrite bind_eq. unfold emit, ret. cbn [result cache events].
      rewrite !app_nil_r, <- !app_assoc. reflexivity.
  - unfold ret. cbn [result cache events]. rewrite bind_eq. unfold emit, ret.
    cbn [result cache events]. by rewrite !app_nil_r.
  - rewrite bind_eq. unfold emit, ret. cbn [result cache events].
    rewrite bind_eq. unfold emit, ret. cbn [result cache events].
    rewrite !app_nil_r, <- !app_assoc. reflexivity.
Qed.

Lemma quiet_port_events (w : World) (c : Cache) :
  fetches (events (getWorkerPort w c)) = [] /\
  warnings (events (getWorkerPort w c)) = [] /\
  debugMessages (events (getWorkerPort w c)) = [].
Proof. destruct (getWorkerPort_events w c) as [-> | ->]; done. Qed.

Lemma fetches_app (a b : list Event) : fetches (a ++ b) = fetches a ++ fetches b.
Proof. apply omap_app. Qed.

Lemma warnings_app (a b : list Event) : warnings (a ++ b) = warnings a ++ warnings b.
Proof. apply omap_app. Qed.

Lemma debugMessages_app (a b : list Event) :
  debugMessages (a ++ b) = debugMessages a ++ debugMessages b.
Proof. apply omap_app. Qed.

(** What the liveness probe leaves in the event list. *)
Lemma isWorkerHealthy_trace (w : World) (c : Cache) :
  warnings (events (isWorkerHealthy w c)) = [] /\
  (fetches (events (isWorkerHealthy w c)) = []
   \/ exists port, result (getWorkerPort w c) = Ok port /\
                   fetches (events (isWorkerHealthy w c)) = [(healthUrl port, keepAliveGet)]).
Proof.
  rewrite isWorkerHealthy_unfold. cbn zeta.
  destruct (quiet_port_events w c) as (Hf & Hw & _).
  destruct (result (getWorkerPort w c)) as [port|e]; cbn [events].
  - rewrite warnings_app, fetches_app, Hw, Hf. split; [done|]. right. by exists port.
  - rewrite Hw, Hf. auto.
Qed.

Lemma isWorkerHealthy_requests (w : World) (c : Cache) :
  match result (getWorkerPort w c) with
  | Ok port =>
      fetches (events (isWorkerHealthy w c)) = [(healthUrl port, keepAliveGet)]
  | Throw e =>
      fetches (events (isWorkerHealthy w c)) = [] /\
      result (isWorkerHealthy w c) = Throw e
  end.
Proof.
  rewrite isWorkerHealthy_unfold. cbn zeta.
  destruct (quiet_port_events w c) as (Hf & _).
  destruct (result (getWorkerPort w c)) as [port|e]; cbn [result events].
  - rewrite fetches_app, Hf. reflexivity.
  - auto.
Qed.

(** What the version check leaves in the event list. *)
Lemma checkWorkerVersion_trace (w : World) (c : Cache) :
  warnings (events (checkWorkerVersion w c)) = [] /\
  (fetches (events (checkWorkerVersion w c)) = []
   \/ exists port, result (getWorkerPort w c) = Ok port /\
                   fetches (events (checkWorkerVersion w c))
                   = [(versionUrl port, keepAliveGet)]).
Proof.
  rewrite checkWorkerVersion_eq.
  destruct (result (getPluginVersion w c)) as [pluginVersion|e]; [|by auto].
  cbn zeta. rewrite getWorkerVersion_eq. cbn zeta.
  destruct (quiet_port_events w c) as (Hf & Hw & _).
  destruct (result (getWorkerPort w c)) as [port|e]; cbn [result events].
  - match goal with
    | |- context [match ?r with Ok _ => _ | Throw _ => _ end] =>
        destruct r as [workerVersion|e]
    end; cbn [events];
      rewrite ?warnings_app, ?fetches_app, Hw, Hf;
      try destruct (strictEq pluginVersion workerVersion);
      (split; [done|]); right; by exists port.
  - cbn [events]. rewrite ?warnings_app, ?fetches_app, Hw, Hf. auto.
Qed.

End LivenessSteps.

(** X12.  Once the port is known, [getWorkerVersion] sends exactly one request,
    to [/api/version] through the keep-alive pool.  A refused request
    propagates its error; an answer outside 2xx throws with the status in
    the message; a 2xx answer that is a JSON object returns its [version]
    field, and returns [undefined] without throwing when the field is
    missing. *)
Theorem getWorkerVersion_answers (w : World) (c : Cache) (port : number) :
  result (getWorkerPort w c) = Ok port ->
  fetches (events (getWorkerVersion w c)) = [(versionUrl port, keepAliveGet)] /\
  match network w (versionUrl port) keepAliveGet with
  | Throw e => result (getWorkerVersion w c) = Throw e
  | Ok response =>
      if ok response then
        forall fields,
          json_body response = Ok (JObj fields) ->
          result (getWorkerVersion w c) = Ok (assoc "version" fields)
      else
        result (getWorkerVersion w c)
        = Throw (ErrorObj ("Failed to get worker version: " +:+ pretty (status response)))
  end.
Proof.
  intros Hport. rewrite getWorkerVersion_eq. cbn zeta. rewrite Hport.
  cbn [result events]. destruct (quiet_port_events w c) as (Hf & _).
  rewrite fetches_app, Hf. split; [reflexivity|].
  destruct (network w (versionUrl port) keepAliveGet) as [response|e]; [|reflexivity].
  destruct (ok response); [|reflexivity].
  intros fields ->. reflexivity.
Qed.

Lemma getWorkerVersion_answers_witness :
  let w := Sample.world (Sample.answering 200) in
  fetches (events (getWorkerVersion w initialCache))
  = [(versionUrl (Num 37777), keepAliveGet)] /\
  result (getWorkerVersion w initialCache) = Ok None.
Proof.
  intros w.
  destruct (getWorkerVersion_answers w initialCache (Num 37777) eq_refl) as [Hreq Hres].
  split; [exact Hreq|]. exact (Hres [] eq_refl).
Defined.

(** X13.  [checkWorkerVersion] only reports.  If the package file cannot be read
    it throws before any request is sent and leaves the cache alone.  If
    both versions are obtained it returns normally whether or not they
    agree, writes one debug line exactly when they differ, and never
    warns. *)
Theorem checkWorkerVersion_only_logs (w : World) (c : Cache) :
  (forall e, readPackageJson w = Throw e ->
             checkWorkerVersion w c
             = {| result := Throw e; cache := c; events := [ReadPackageJson] |}) /\
  (forall pluginVersion workerVersion,
      result (getPluginVersion w c) = Ok pluginVersion ->
      result (getWorkerVersion w c) = Ok workerVersion ->
      result (checkWorkerVersion w c) = Ok tt /\
      warnings (events (checkWorkerVersion w c)) = [] /\
      debugMessages (events (checkWorkerVersion w c))
      = if strictEq pluginVersion workerVersion then [] else ["Version check"]).
Proof.
  split.
  - intros e He. rewrite checkWorkerVersion_eq, getPluginVersion_eq. cbn [result].
    rewrite He. reflexivity.
  - intros pluginVersion workerVersion Hp Hw.
    destruct (checkWorkerVersion_trace w c) as [Hwarn _].
    split; [|split; [exact Hwarn|]].
    + rewrite checkWorkerVersion_eq, Hp. cbn zeta. rewrite Hw. reflexivity.
    + rewrite checkWorkerVersion_eq, Hp. cbn zeta. rewrite Hw. cbn [events].
      assert (Hquiet : debugMessages (events (getWorkerVersion w c)) = []).
      { rewrite getWorkerVersion_eq. cbn zeta.
        destruct (quiet_port_events w c) as (_ & _ & Hd).
        destruct (result (getWorkerPort w c)); cbn [events];
          rewrite ?debugMessages_app, Hd; reflexivity. }
      rewrite !debugMessages_app, Hquiet.
      destruct (strictEq pluginVersion workerVersion); reflexivity.
Qed.

Lemma checkWorkerVersion_only_logs_witness :
  let w := Sample.world (Sample.answering 200) in
  result (checkWorkerVersion w initialCache) = Ok tt /\
  warnings (events (checkWorkerVersion w initialCache)) = [] /\
  debugMessages (events (checkWorkerVersion w initialCache)) = ["Version check"].
Proof.
  intros w.
  exact (proj2 (checkWorkerVersion_only_logs w initialCache)
           (Some (JStr "9.1.2")) None eq_refl eq_refl).
Defined.

(** X14.  [ensureWorkerRunning] always returns a boolean.  It returns true
    exactly when the liveness probe answered 2xx and the version check that
    follows ran to its end; and it logs its "not healthy" warning exactly
    when it returns false. *)
Theorem ensureWorkerRunning_true_iff (w w' : World) (c : Cache) :
  let o := ensureWorkerRunning w w' c in
  exists b,
    result o = Ok b /\
    (b = true <->
     result (isWorkerHealthy w c) = Ok true /\
     exists u, result (checkWorkerVersion w' (cache (isWorkerHealthy w c))) = Ok u) /\
    warnings (events o) = if b then [] else [notHealthyWarning].
Proof.
  intros o. subst o. rewrite ensureWorkerRunning_eq. cbn zeta.
  destruct (isWorkerHealthy_trace w c) as [Hwh _].
  destruct (result (isWorkerHealthy w c)) as [[|]|e].
  - destruct (checkWorkerVersion_trace w' (cache (isWorkerHealthy w c))) as [Hwv _].
    destruct (result (checkWorkerVersion w' (cache (isWorkerHealthy w c)))) as [u|e].
    + exists true. cbn [result events]. rewrite warnings_app, Hwh, Hwv.
      repeat split; eauto.
    + exists false. cbn [result events]. rewrite !warnings_app, Hwh, Hwv.
      repeat split; try done. intros [_ [u Hu]]. discriminate Hu.
  - exists false. cbn [result events]. rewrite warnings_app, Hwh.
    repeat split; try done. intros [Hh _]. discriminate Hh.
  - exists false. cbn [result events]. rewrite warnings_app, Hwh.
    repeat split; try done. intros [Hh _]. discriminate Hh.
Qed.

Lemma ensureWorkerRunning_true_iff_witness :
  let w := Sample.world (Sample.answering 200) in
  exists b,
    result (ensureWorkerRunning w w initialCache) = Ok b /\
    (b = true <->
     result (isWorkerHealthy w initialCache) = Ok true /\
     exists u, result (checkWorkerVersion w (cache (isWorkerHealthy w initialCache)))
               = Ok u) /\
    warnings (events (ensureWorkerRunning w w initialCache))
    = if b then [] else [notHealthyWarning].
Proof.
  exact (ensureWorkerRunning_true_iff (Sample.world (Sample.answering 200))
           (Sample.world (Sample.answering 200)) initialCache).
Defined.

(** X15.  [ensureWorkerRunning] sends at most two requests, both through the
    keep-alive pool to the loopback address: first [/api/health], and after
    it at most one [/api/version].  The configured host is not used. *)
Theorem ensureWorkerRunning_requests (w w' : World) (c : Cache) :
  let reqs := fetches (events (ensureWorkerRunning w w' c)) in
  match result (getWorkerPort w c) with
  | Throw _ => reqs = []
  | Ok port =>
      reqs = [(healthUrl port, keepAliveGet)]
      \/ exists port',
           reqs = [(healthUrl port, keepAliveGet); (versionUrl port', keepAliveGet)]
  end.
Proof.
  intros reqs. subst reqs. rewrite ensureWorkerRunning_eq. cbn zeta.
  pose proof (isWorkerHealthy_requests w c) as Hfh.
  destruct (result (getWorkerPort w c)) as [port|e0].
  - destruct (result (isWorkerHealthy w c)) as [[|]|e].
    + destruct (checkWorkerVersion_trace w' (cache (isWorkerHealthy w c))) as [_ Hfv].
      destruct (result (checkWorkerVersion w' (cache (isWorkerHealthy w c))));
        cbn [events]; rewrite !fetches_app, Hfh;
        destruct Hfv as [->|(port' & _ & ->)]; cbn [app]; eauto.
    + cbn [events]. rewrite fetches_app, Hfh. auto.
    + cbn [events]. rewrite fetches_app, Hfh. auto.
  - destruct Hfh as [Hfh ->]. cbn [events]. rewrite fetches_app, Hfh. reflexivity.
Qed.

(** ** More on the handlers *)

Lemma getWorkerPort_keeps_host (w : World) (c : Cache) :
  cachedHost (cache (getWorkerPort w c)) = cachedHost c.
Proof.
  destruct (portOverride w) as [p|] eqn:Hov.
  - by rewrite (getWorkerPort_override w c p Hov).
  - rewrite (getWorkerPort_chain w c Hov). unfold reloaded.
    destruct (cachedPort c); [destruct (now w - cacheTime c <? CACHE_TTL)|];
      try destruct (loadFromFile w); reflexivity.
Qed.

(** X16.  Every request a handler sends is a POST with a JSON content type to
    the loopback address; the session id is used as it came and the host
    from the settings file plays no part.  Stop, session-end, prompt-submit
    and tool-observation post to
    [http://127.0.0.1:<port>/api/sessions/<session id>/<endpoint>] with the
    port [getWorkerPort] returned: stop and session-end send an empty
    object, tool-observation sends the stdin document unchanged under
    [observation], prompt-submit sends an object with a [prompt] field.
    Session-start posts to [http://127.0.0.1:<port>/api/sessions/init]
    with the port read from [WORKER_PORT] (default 37777), whatever
    [getWorkerPort] would say, and sends the session id, the working
    directory and an empty prompt. *)
Theorem handler_request_shape (h : Handler) (w : World) (c : Cache) :
  Forall (fun request =>
            exists sessionId port,
              getSessionId w = Ok sessionId /\
              match h with
              | SessionStart => port = sessionStartPort w
              | _ => result (getWorkerPort w c) = Ok port
              end /\
              fst request = "http://127.0.0.1:" +:+ showNumber port +:+ route h sessionId /\
              method (snd request) = Some "POST" /\
              headers (snd request) = [("Content-Type", "application/json")] /\
              match h with
              | SessionStart =>
                  body (snd request)
                  = Some (JObj [("sessionId", JStr sessionId);
                                ("project", JStr (cwd w));
                                ("prompt", JStr "")])
              | Stop | SessionEnd => body (snd request) = Some (JObj [])
              | PostToolUse =>
                  exists input, readJsonFromStdin w = Ok input /\
                                body (snd request) = Some (JObj [("observation", input)])
              | UserPromptSubmit =>
                  exists payload, body (snd request) = Some (JObj [("prompt", payload)])
              end)
         (fetches (events (handle h w c))).
Proof.
  destruct h; cbn [handle].
  { rewrite handleSessionStart_eq.
    destruct (getSessionId w) as [sessionId|e] eqn:Hsid; cbn zeta; [|constructor].
    destruct (network w _ _) as [response|e];
      [destruct (json_body response) as [context|e]|].
    all: cbn [events fetches omap]; repeat constructor.
    all: exists sessionId, (sessionStartPort w); repeat split; reflexivity. }
  all: run_handler w c.
  all: cbn -[pretty String.append]; repeat constructor.
  all: eexists _, _; repeat split; try reflexivity; eexists; eauto.
Qed.

(** X17.  No handler resolves the host: whatever happens, the cached host after
    the run is the cached host before it. *)
Theorem handlers_leave_host_cache (h : Handler) (w : World) (c : Cache) :
  cachedHost (cache (handle h w c)) = cachedHost c.
Proof.
  pose proof (getWorkerPort_keeps_host w c) as Hhost.
  destruct h; cbn [handle].
  { rewrite handleSessionStart_eq.
    destruct (getSessionId w); cbn zeta; [|reflexivity].
    destruct (network w _ _) as [response|e];
      [destruct (json_body response)|]; reflexivity. }
  all: run_handler w c; simpl in *; congruence.
Qed.

(** X18.  With [null] on stdin, prompt-submit fails before sending anything: it
    reads [input.prompt], which throws, and exits 2 with that error on the
    error stream.  Tool-observation, given the same input, sends its
    request with [{observation: null}]. *)
Theorem null_stdin_stops_prompt_submit_only
    (w : World) (c : Cache) (sessionId : string) (port : number) :
  getSessionId w = Ok sessionId ->
  readJsonFromStdin w = Ok JNull ->
  result (getWorkerPort w c) = Ok port ->
  (result (handleUserPromptSubmit w c) = Ok 2 /\
   fetches (events (handleUserPromptSubmit w c)) = [] /\
   exists e, getProp JNull "prompt" = Throw e /\
             stderr (events (handleUserPromptSubmit w c)) = [errorReport (errorMessage e)])
  /\
  fetches (events (handlePostToolUse w c))
  = [("http://127.0.0.1:" +:+ showNumber port +:+ "/api/sessions/" +:+ sessionId
        +:+ "/observation",
      jsonPost (JObj [("observation", JNull)]))].
Proof.
  intros Hsid Hin Hport. split.
  - run_handler w c; simplify_eq/=.
    all: repeat split; try reflexivity; eexists; split; reflexivity.
  - run_handler w c; simplify_eq/=; reflexivity.
Qed.

Lemma null_stdin_stops_prompt_submit_only_witness :
  (result (handleUserPromptSubmit nullStdin initialCache) = Ok 2 /\
   fetches (events (handleUserPromptSubmit nullStdin initialCache)) = [] /\
   exists e, getProp JNull "prompt" = Throw e /\
             stderr (events (handleUserPromptSubmit nullStdin initialCache))
             = [errorReport (errorMessage e)])
  /\
  fetches (events (handlePostToolUse nullStdin initialCache))
  = [("http://127.0.0.1:" +:+ showNumber (Num 37777) +:+ "/api/sessions/" +:+ "abc"
        +:+ "/observation",
      jsonPost (JObj [("observation", JNull)]))].
Proof.
  exact (null_stdin_stops_prompt_submit_only nullStdin initialCache "abc" (Num 37777)
           eq_refl eq_refl eq_refl).
Defined.

(** X19.  What prompt-submit sends as the prompt: the [prompt] field of the stdin
    document when that field is truthy, and otherwise (field missing, or
    empty string, zero, false, null) the whole stdin document. *)
Theorem prompt_submit_payload
    (w : World) (c : Cache) (sessionId : string) (port : number)
    (input : json) (prompt : option json) :
  getSessionId w = Ok sessionId ->
  readJsonFromStdin w = Ok input ->
  result (getWorkerPort w c) = Ok port ->
  getProp input "prompt" = Ok prompt ->
  let sent payload :=
    fetches (events (handleUserPromptSubmit w c))
    = [("http://127.0.0.1:" +:+ showNumber port +:+ "/api/sessions/" +:+ sessionId
          +:+ "/prompt",
        {| method := Some "POST"; headers := [("Content-Type", "application/json")];
           body := Some (JObj [("prompt", payload)]);
           agent := Some keepAliveAgent |})] in
  (truthy prompt = false -> sent input) /\
  (forall p, prompt = Some p -> truthy prompt = true -> sent p).
Proof.
  intros Hsid Hin Hport Hprop sent. subst sent. split.
  - intros Hfalsy. run_handler w c; simplify_eq/=.
    all: try congruence.
    all: match goal with
         | H1 : getProp ?i ?k = Ok ?x, H2 : getProp ?i ?k = Ok ?y |- _ =>
             first [constr_eq x y; fail 1 | assert (x = y) by congruence; subst]
         end.
    all: rewrite Hfalsy; reflexivity.
  - intros p Hp Htruthy. revert Hp. run_handler w c; simplify_eq/=.
    all: try congruence.
    all: match goal with
         | H1 : getProp ?i ?k = Ok ?x, H2 : getProp ?i ?k = Ok ?y |- _ =>
             first [constr_eq x y; fail 1 | assert (x = y) by congruence; subst]
         end.
    all: intros ->; rewrite Htruthy; reflexivity.
Qed.

Lemma prompt_submit_payload_witness :
  let w := withEnv {[ "CLAUDE_MEM_WORKER_PORT" := "37777" ]}
             (Sample.world (Sample.answering 200)) in
  let w' := settingsPort "37777" in
  fetches (events (handleUserPromptSubmit w initialCache))
  = [("http://127.0.0.1:" +:+ showNumber (Num 37777) +:+ "/api/sessions/" +:+ "abc"
        +:+ "/prompt",
      {| method := Some "POST"; headers := [("Content-Type", "application/json")];
         body := Some (JObj [("prompt", JStr "hello")]);
         agent := Some keepAliveAgent |})]
  /\
  fetches (events (handleUserPromptSubmit w' initialCache))
  = [("http://127.0.0.1:" +:+ showNumber (Num 37777) +:+ "/api/sessions/" +:+ "abc"
        +:+ "/prompt",
      {| method := Some "POST"; headers := [("Content-Type", "application/json")];
         body := Some (JObj [("prompt", JObj [])]);
         agent := Some keepAliveAgent |})].
Proof.
  intros w w'. split.
  - exact (proj2 (prompt_submit_payload w initialCache "abc" (Num 37777)
                    (JObj [("prompt", JStr "hello")]) (Some (JStr "hello"))
                    eq_refl eq_refl eq_refl eq_refl)
             (JStr "hello") eq_refl eq_refl).
  - exact (proj1 (prompt_submit_payload w' initialCache "abc" (Num 37777)
                    (JObj []) None eq_refl eq_refl eq_refl eq_refl) eq_refl).
Defined.

(** ** More on the timeout race *)

(** X20.  A settled promise stays as it is: once [fetchWithTimeout] has settled,
    nothing the event loop delivers later (a late answer after the timeout,
    a timer tick after the answer) changes the outcome, the settle time or
    the timer. *)
Theorem fetchWithTimeout_settles_once
    (timeoutMs : Z) (ticks more : list FetchTimeout.Tick) :
  FetchTimeout.promise (FetchTimeout.fetchWithTimeout timeoutMs ticks)
  <> FetchTimeout.Pending ->
  FetchTimeout.fetchWithTimeout timeoutMs (ticks ++ more)
  = FetchTimeout.fetchWithTimeout timeoutMs ticks.
Proof.
  destruct ticks as [|tick ticks]; [intros H; by destruct H|].
  intros _. cbn [app]. by rewrite !first_tick_decides.
Qed.

Lemma fetchWithTimeout_settles_once_witness :
  FetchTimeout.fetchWithTimeout 5000
    ([FetchTimeout.TimerDue 5001]
       ++ [FetchTimeout.FetchFulfils 9000 {| status := 200; json_body := Ok JNull |}])
  = FetchTimeout.fetchWithTimeout 5000 [FetchTimeout.TimerDue 5001].
Proof.
  apply (fetchWithTimeout_settles_once 5000 [FetchTimeout.TimerDue 5001]).
  discriminate.
Defined.

(** X21.  The timer and the promise move together.  The timer is armed only
    while nothing has been delivered and the promise is pending; a fired
    timer always goes with the timeout rejection, stamped with the time the
    timer was delivered; a cleared timer always goes with the outcome of
    the request, stamped with the time the request settled. *)
Theorem fetchWithTimeout_timer_follows_promise
    (timeoutMs : Z) (ticks : list FetchTimeout.Tick) :
  let st := FetchTimeout.fetchWithTimeout timeoutMs ticks in
  match FetchTimeout.timeoutId st with
  | FetchTimeout.Armed =>
      ticks = [] /\ FetchTimeout.promise st = FetchTimeout.Pending /\
      FetchTimeout.settledAt st = None
  | FetchTimeout.Fired =>
      FetchTimeout.promise st = FetchTimeout.Rejected (FetchTimeout.timeoutError timeoutMs) /\
      exists t rest, ticks = FetchTimeout.TimerDue t :: rest /\
                     FetchTimeout.settledAt st = Some t
  | FetchTimeout.Cleared =>
      exists t rest,
        FetchTimeout.settledAt st = Some t /\
        ((exists response, ticks = FetchTimeout.FetchFulfils t response :: rest /\
                           FetchTimeout.promise st = FetchTimeout.Fulfilled response)
         \/
         (exists err, ticks = FetchTimeout.FetchRejects t err :: rest /\
                      FetchTimeout.promise st = FetchTimeout.Rejected err))
  end.
Proof.
  intros st. subst st. destruct ticks as [|tick rest]; [by cbn|].
  rewrite first_tick_decides. destruct tick as [t|t response|t err]; cbn.
  - split; [done|]. by exists t, rest.
  - exists t, rest. split; [done|]. left. by exists response.
  - exists t, rest. split; [done|]. right. by exists err.
Qed.

(** ** The average of the recorded durations *)

Section Average.

Lemma foldl_add_shift (l : list Z) (a : Z) : foldl Z.add a l = a + foldl Z.add 0 l.
Proof.
  revert a. induction l as [|v l IH]; intros a; cbn; [lia|].
  rewrite (IH (a + v)), (IH (0 + v)). lia.
Qed.

Lemma foldl_add_bounds (l : list Z) (lo hi : Z) :
  Forall (fun v => lo <= v <= hi) l ->
  Z.of_nat (length l) * lo <= foldl Z.add 0 l <= Z.of_nat (length l) * hi.
Proof.
  induction 1 as [|v l Hv _ IH]; [cbn; lia|].
  cbn [foldl length]. rewrite foldl_add_shift. lia.
Qed.

Lemma roundedQuotient_nearest (sum count : Z) :
  0 < count ->
  2 * sum - count < 2 * count * roundedQuotient sum count <= 2 * sum + count.
Proof.
  intros Hn. unfold roundedQuotient.
  pose proof (Z.div_mod (2 * sum + count) (2 * count) ltac:(lia)) as Hdm.
  pose proof (Z.mod_pos_bound (2 * sum + count) (2 * count) ltac:(lia)) as Hb.
  revert Hdm Hb.
  generalize ((2 * sum + count) `div` (2 * count)) ((2 * sum + count) `mod` (2 * count)).
  intros q r Hdm Hb. nia.
Qed.

Lemma foldl_add_nonneg (l : list Z) :
  Forall (fun v => 0 <= v) l -> 0 <= foldl Z.add 0 l.
Proof.
  induction 1 as [|v l Hv _ IH]; [cbn; lia|].
  cbn [foldl]. rewrite foldl_add_shift. lia.
Qed.

(** While the running sum stays a safe integer, adding doubles is adding
    integers. *)
Lemma foldl_addDoubles_exact (l : list Z) (a : Z) :
  0 <= a -> Forall (fun v => 0 <= v) l ->
  a + foldl Z.add 0 l <= MAX_SAFE_INTEGER ->
  foldl addDoubles a l = a + foldl Z.add 0 l.
Proof.
  intros Ha Hl. revert a Ha. induction Hl as [|v l Hv Hl IH]; intros a Ha Hsum.
  - cbn. lia.
  - cbn [foldl] in *. rewrite foldl_add_shift in Hsum.
    pose proof (foldl_add_nonneg l Hl) as Hrest.
    unfold addDoubles at 2. rewrite toDouble_safe by lia.
    rewrite IH by lia. rewrite (foldl_add_shift l (0 + v)). lia.
Qed.

(** The roundings of the mantissa and of [Math.round] together give the
    nearest integer of the exact quotient, as long as the mantissa keeps
    more fraction bits than the divisor has bits. *)
Lemma roundHalfEven_near (p r : Z) :
  0 <= p -> 0 < r ->
  2 * p - r <= 2 * r * roundHalfEven p r <= 2 * p + r.
Proof.
  intros Hp Hr. unfold roundHalfEven.
  pose proof (Z.div_mod p r ltac:(lia)) as Hdm.
  pose proof (Z.mod_pos_bound p r Hr) as Hb.
  revert Hdm Hb. generalize (p `div` r) (p `mod` r). intros q rem Hdm Hb.
  destruct (Z.ltb_spec r (2 * rem)) as [Hlt|Hge]; cbn [orb].
  - nia.
  - destruct (Z.eqb_spec (2 * rem) r) as [Htie|_]; cbn [andb];
      [destruct (Z.odd q)|]; nia.
Qed.

Lemma rounded_mantissa (s n H : Z) :
  0 <= s -> 0 < n -> n < 2 * H ->
  (2 * roundHalfEven (s * (2 * H)) n + 2 * H) `div` (2 * (2 * H)) = roundedQuotient s n.
Proof.
  intros Hs Hn HH.
  pose proof (roundedQuotient_nearest s n Hn) as Hk.
  pose proof (roundHalfEven_near (s * (2 * H)) n ltac:(nia) Hn) as HM.
  revert Hk HM. generalize (roundedQuotient s n) (roundHalfEven (s * (2 * H)) n).
  intros k M Hk HM.
  symmetry. apply (Z.div_unique_pos _ _ k (2 * M + 2 * H - 2 * (2 * H) * k)); [|lia].
  assert (Hlow : (2 * k - 1) * H <= M).
  { assert ((2 * k - 1) * H * n <= s * (2 * H)) by nia.
    assert (2 * ((2 * k - 1) * H) * n - n <= 2 * n * M) by nia.
    nia. }
  assert (Hhigh : M < (2 * k + 1) * H).
  { assert (s * (2 * H) <= (2 * k + 1) * H * n - H) by nia.
    assert (2 * n * M <= 2 * ((2 * k + 1) * H) * n - 2 * H + n) by nia.
    nia. }
  nia.
Qed.

(** Binary exponent of the quotient of a positive sum below 2^52: at most
    51, and so small that the mantissa keeps more fraction bits than the
    divisor has bits. *)
Lemma quotient_exponent (s n : Z) :
  0 < s < 2 ^ 52 -> 0 < n ->
  let d := Z.log2 s - Z.log2 n in
  let e := if (if 0 <=? d then n * 2 ^ d <=? s else n <=? s * 2 ^ (- d))
           then d else d - 1 in
  e <= 51 /\ n < 2 ^ (52 - e).
Proof.
  intros [Hs0 Hs] Hn d e.
  assert (Hls : Z.log2 s < 52) by (apply Z.log2_lt_pow2; lia).
  pose proof (Z.log2_nonneg s) as Hls0.
  pose proof (Z.log2_nonneg n) as Hln0.
  pose proof (Z.log2_spec n Hn) as [_ Hnhi].
  assert (Hd : d <= 51) by (subst d; lia).
  assert (Hshift : n < 2 ^ (53 - d)).
  { eapply Z.lt_le_trans; [exact Hnhi|].
    apply Z.pow_le_mono_r; subst d; lia. }
  subst e.
  destruct (if 0 <=? d then n * 2 ^ d <=? s else n <=? s * 2 ^ (- d)) eqn:Htest.
  - split; [lia|].
    destruct (Z.leb_spec 0 d) as [Hd0|Hd0].
    + apply Z.leb_le in Htest.
      assert (Hpow : 2 ^ 52 = 2 ^ d * 2 ^ (52 - d)).
      { rewrite <- Z.pow_add_r by lia. f_equal; lia. }
      assert (0 < 2 ^ d) by (apply Z.pow_pos_nonneg; lia).
      assert (0 < 2 ^ (52 - d)) by (apply Z.pow_pos_nonneg; lia).
      nia.
    + apply Z.leb_le in Htest.
      assert (Hpow : 2 ^ (52 - d) = 2 ^ 52 * 2 ^ (- d)).
      { rewrite <- Z.pow_add_r by lia. f_equal; lia. }
      assert (0 < 2 ^ (- d)) by (apply Z.pow_pos_nonneg; lia).
      nia.
  - split; [lia|]. replace (52 - (d - 1)) with (53 - d) by lia. exact Hshift.
Qed.

Lemma divideDoubles_exact (s n : Z) :
  0 <= s < 2 ^ 52 -> 0 < n ->
  mathRound (divideDoubles s n) = roundedQuotient s n.
Proof.
  intros [Hs0 Hs] Hn. unfold divideDoubles.
  destruct (Z.eqb_spec s 0) as [->|Hne].
  - unfold mathRound, roundedQuotient. cbn [exponent mantissa Z.leb Z.compare].
    rewrite Z.mul_0_l. symmetry. apply Z.div_small. lia.
  - rewrite Z.abs_eq by lia. rewrite Z.sgn_pos by lia.
    destruct (quotient_exponent s n ltac:(lia) Hn) as [He Hbits].
    cbv zeta in He, Hbits. revert He Hbits.
    generalize (if (if 0 <=? Z.log2 s - Z.log2 n
                    then n * 2 ^ (Z.log2 s - Z.log2 n) <=? s
                    else n <=? s * 2 ^ (- (Z.log2 s - Z.log2 n)))
                then Z.log2 s - Z.log2 n else Z.log2 s - Z.log2 n - 1).
    intros e He Hbits.
    destruct (Z.leb_spec (e - 52) 0) as [_|Hx]; [|lia].
    unfold mathRound. cbn [exponent mantissa].
    destruct (Z.leb_spec 0 (e - 52)) as [Hx|_]; [lia|].
    rewrite Z.mul_1_l.
    assert (Hhalf : 2 ^ (- (e - 52)) = 2 * 2 ^ (51 - e)).
    { replace (- (e - 52)) with (1 + (51 - e)) by lia.
      rewrite Z.pow_add_r by lia. reflexivity. }
    assert (Hfull : 2 ^ (1 - (e - 52)) = 2 * (2 * 2 ^ (51 - e))).
    { replace (1 - (e - 52)) with (1 + (1 + (51 - e))) by lia.
      rewrite !Z.pow_add_r by lia. reflexivity. }
    rewrite Hfull, Hhalf.
    apply rounded_mantissa; [lia|lia|].
    replace (52 - e) with (- (e - 52)) in Hbits by lia. rewrite Hhalf in Hbits. exact Hbits.
Qed.

(** For durations that are not negative and add up to less than 2^52, the
    doubles of [calculateAverage] give the exactly rounded quotient. *)
Lemma calculateAverage_exact (results : list (string * Z)) :
  Forall (fun entry => 0 <= entry.2) results ->
  totalDuration results < 2 ^ 52 ->
  results <> [] ->
  calculateAverage results
  = roundedQuotient (totalDuration results) (Z.of_nat (length results)).
Proof.
  intros Hpos Htotal Hne. unfold calculateAverage, totalDuration in *.
  rewrite length_fmap.
  assert (Hlen : length results <> 0%nat) by (destruct results; [done|cbn; lia]).
  rewrite decide_False by exact Hlen.
  assert (Hvals : Forall (fun v => 0 <= v) results.*2).
  { apply Forall_fmap. eapply Forall_impl; [exact Hpos|]. by intros [k v]. }
  assert (H52 : 2 ^ 52 = 4503599627370496) by reflexivity.
  rewrite foldl_addDoubles_exact; [|lia|exact Hvals|unfold MAX_SAFE_INTEGER; lia].
  rewrite Z.add_0_l. apply divideDoubles_exact; [|lia].
  split; [|exact Htotal]. by apply foldl_add_nonneg.
Qed.

End Average.

(** Outside that range the sum and the quotient are rounded as doubles: the
    average can come out above the exactly rounded one, or below every
    value. *)
Example calculateAverage_beyond_exact_range :
  calculateAverage [("session-start", 2 ^ 51); ("stop", 2 ^ 51); ("session-end", 2 ^ 51 + 1)]
  = 2251799813685249 /\
  calculateAverage [("a", 2 ^ 53 - 1); ("b", 2 ^ 53 - 1); ("c", 2 ^ 53 - 1);
                    ("d", 2 ^ 53 - 1); ("e", 2 ^ 53 - 1)]
  = 9007199254740990 /\
  calculateAverage [("session-start", 41); ("post-tool-use", 38)] = 40 /\
  calculateAverage [("session-start", 1); ("stop", 0); ("session-end", 0)] = 0.
Proof. vm_compute. auto. Qed.

(** X22.  [calculateAverage] returns 0 for an empty record; for durations that
    are not negative and add up to less than 2^52 it returns the integer
    nearest to sum/count (halves go up), so that the result times the count
    is within half the count of the sum. *)
Theorem calculateAverage_rounds_to_nearest (results : list (string * Z)) :
  Forall (fun entry => 0 <= entry.2) results ->
  totalDuration results < 2 ^ 52 ->
  calculateAverage [] = 0 /\
  (results <> [] ->
   let count := Z.of_nat (length results) in
   let average := calculateAverage results in
   2 * totalDuration results - count < 2 * count * average
   /\ 2 * count * average <= 2 * totalDuration results + count).
Proof.
  intros Hpos Htotal. split; [reflexivity|]. intros Hne count average.
  subst count average. rewrite (calculateAverage_exact results Hpos Htotal Hne).
  apply roundedQuotient_nearest. destruct results; [done|cbn; lia].
Qed.

Lemma calculateAverage_rounds_to_nearest_witness :
  let results := [("session-start", 41); ("post-tool-use", 38)] in
  2 * totalDuration results - 2 < 2 * 2 * calculateAverage results
  /\ 2 * 2 * calculateAverage results <= 2 * totalDuration results + 2.
Proof.
  intros results.
  refine (proj2 (calculateAverage_rounds_to_nearest results _ _) _).
  - repeat constructor; discriminate.
  - reflexivity.
  - discriminate.
Defined.

(** X23.  For durations that are not negative and add up to less than 2^52, the
    average never leaves the range of the values: if every recorded
    duration lies between [lo] and [hi], so does the average of a non-empty
    record. *)
Theorem calculateAverage_within_range (results : list (string * Z)) (lo hi : Z) :
  results <> [] ->
  0 <= lo ->
  totalDuration results < 2 ^ 52 ->
  Forall (fun entry => lo <= entry.2 <= hi) results ->
  lo <= calculateAverage results <= hi.
Proof.
  intros Hne Hlo Htotal Hall.
  assert (Hpos : Forall (fun entry : string * Z => 0 <= entry.2) results).
  { eapply Forall_impl; [exact Hall|]. intros entry. cbn. lia. }
  rewrite (calculateAverage_exact results Hpos Htotal Hne).
  assert (Hcount : 0 < Z.of_nat (length results)) by (destruct results; [done|cbn; lia]).
  assert (Hvals : Forall (fun v => lo <= v <= hi) results.*2).
  { apply Forall_fmap. eapply Forall_impl; [exact Hall|]. by intros [k v]. }
  pose proof (foldl_add_bounds _ lo hi Hvals) as Hsum.
  rewrite length_fmap in Hsum.
  pose proof (roundedQuotient_nearest (totalDuration results)
                (Z.of_nat (length results)) Hcount) as Hq.
  unfold totalDuration in *. nia.
Qed.

Lemma calculateAverage_within_range_witness :
  let results := [("session-start", 41); ("post-tool-use", 38)] in
  38 <= calculateAverage results <= 41.
Proof.
  intros results.
  apply (calculateAverage_within_range results 38 41).
  - discriminate.
  - lia.
  - reflexivity.
  - repeat constructor; cbn; lia.
Defined.
